(** * FormulaEvaluator: a recursive-descent evaluator of spreadsheet formulas

    Shallow embedding of [src/Engine/FormulaEvaluator.ts] and the properties
    of its specification.

    - JavaScript numbers are IEEE-754 binary64 values: the kernel's primitive
      [float], with [+], [-], [*], [/], and [PrimFloat.eqb] for [===] on two
      numbers.  [Number(string)] follows the StringNumericLiteral grammar of
      ECMAScript, with the decimal value rounded to the nearest binary64.
    - A token is a JavaScript string, modelled as a [string] that holds one
      character per code unit (code units below 256).  Reading the formula
      past its end yields [undefined], modelled as [None].
    - The evaluator object is a record of its private fields; every method
      takes the object and returns the updated object with its result.
    - [Cell.isValidCellLabel] and the constants of [ErrorMessages] are
      parameters (the class [Imports]); a cell and the store are modelled by
      what the evaluator reads from them, as total functions.
    - The recursion of the three grammar methods is bounded by a fuel
      argument: each call and each loop iteration takes one unit.
      [evaluate] gives three units per token and three more, which is
      always enough ([evaluate_total]).
    - The traced grammar methods are the grammar methods with two more
      results: the number of steps taken (calls of a grammar method and
      tests of a loop condition) and the list of the error messages
      recorded.  Without these they are the grammar methods
      ([traced_untraced]).

    The file has the definitions first (the JavaScript conversions, the
    evaluator, and the notions that the properties are stated with), then
    the lemmas on the grammar methods, then the properties C1 to C10, and
    last their instances at given inputs. *)

From Stdlib Require Import ZArith Lia Bool List Ascii String Floats.
Import ListNotations.

Open Scope string_scope.
Open Scope list_scope.

(** ** JavaScript's [Number(string)] and [isNaN] *)

Module JS.

Local Open Scope Z_scope.

(** StrWhiteSpaceChar, for code units below 256: TAB, LF, VT, FF, CR, SP and
    NBSP. *)
Definition isStrWhiteSpaceChar (c : ascii) : bool :=
  let n := Z.of_nat (nat_of_ascii c) in
  (9 <=? n) && (n <=? 13) || (n =? 32) || (n =? 160).

Fixpoint skipWhiteSpace (l : list ascii) : list ascii :=
  match l with
  | c :: l' => if isStrWhiteSpaceChar c then skipWhiteSpace l' else l
  | [] => []
  end.

Definition trim (l : list ascii) : list ascii :=
  rev (skipWhiteSpace (rev (skipWhiteSpace l))).

(** The value of a digit in a base up to 16, [None] for any other
    character. *)
Definition digitValue (base : Z) (c : ascii) : option Z :=
  let n := Z.of_nat (nat_of_ascii c) in
  let v :=
    if (48 <=? n) && (n <=? 57) then n - 48
    else if (97 <=? n) && (n <=? 102) then n - 87
    else if (65 <=? n) && (n <=? 70) then n - 55
    else 16 in
  if v <? base then Some v else None.

(** The longest prefix of digits, read as a numeral in [base], with its
    length and the rest of the text. *)
Fixpoint digits (base : Z) (acc : Z) (len : Z) (l : list ascii)
  : Z * Z * list ascii :=
  match l with
  | c :: l' =>
      match digitValue base c with
      | Some v => digits base (acc * base + v) (len + 1) l'
      | None => (acc, len, l)
      end
  | [] => (acc, len, [])
  end.

(** The Number value for the mathematical value [m * 10 ^ e], [0 <= m]:
    the nearest binary64 value, ties to even. *)
Definition roundMV (m e : Z) : float :=
  match m with
  | Z0 => zero
  | Zneg _ => nan
  | Zpos _ =>
      if 0 <=? e then
        SF2Prim (binary_normalize prec emax (m * 10 ^ e) 0 false)
      else
        let '(q, e', l) := SFdiv_core_binary prec emax m 0 (10 ^ (- e)) 0 in
        SF2Prim (binary_round_aux prec emax false q e' l)
  end.

(** ExponentPart, optional: [e] or [E], an optional sign and at least one
    digit, up to the end of the text. *)
Definition exponentPart (l : list ascii) : option Z :=
  match l with
  | [] => Some 0
  | c :: l' =>
      if (Ascii.eqb c "e" || Ascii.eqb c "E")%char then
        let '(neg, l'') :=
          match l' with
          | s :: r =>
              if Ascii.eqb s "-"%char then (true, r)
              else if Ascii.eqb s "+"%char then (false, r)
              else (false, l')
          | [] => (false, l')
          end in
        match digits 10 0 0 l'' with
        | (v, len, []) =>
            if 0 <? len then Some (if neg then - v else v) else None
        | _ => None
        end
      else None
  end.

(** StrUnsignedDecimalLiteral. *)
Definition strUnsignedDecimalLiteral (l : list ascii) : option float :=
  if String.eqb (string_of_list_ascii l) "Infinity" then Some infinity
  else
    let '(ip, iplen, r1) := digits 10 0 0 l in
    let '(m, fplen, r2) :=
      match r1 with
      | c :: r =>
          if Ascii.eqb c "."%char
          then let '(m, len, r2) := digits 10 ip iplen r in (m, len - iplen, r2)
          else (ip, 0, r1)
      | [] => (ip, 0, r1)
      end in
    if 0 <? iplen + fplen then
      match exponentPart r2 with
      | Some ex => Some (roundMV m (ex - fplen))
      | None => None
      end
    else None.

(** NonDecimalIntegerLiteral: [0b], [0o] or [0x] (either case) and at
    least one digit of that base. *)
Definition nonDecimalIntegerLiteral (l : list ascii) : option float :=
  match l with
  | z :: b :: r =>
      let base :=
        if (Ascii.eqb b "x" || Ascii.eqb b "X")%char then Some 16
        else if (Ascii.eqb b "o" || Ascii.eqb b "O")%char then Some 8
        else if (Ascii.eqb b "b" || Ascii.eqb b "B")%char then Some 2
        else None in
      match Ascii.eqb z "0"%char, base with
      | true, Some base =>
          match digits base 0 0 r with
          | (v, len, []) => if 0 <? len then Some (roundMV v 0) else None
          | _ => None
          end
      | _, _ => None
      end
  | _ => None
  end.

(** StringToNumber: white space is trimmed, the empty text is [+0], a text
    outside the grammar is [NaN]. *)
Definition StringToNumber (s : string) : float :=
  match trim (list_ascii_of_string s) with
  | [] => zero
  | (c :: r) as l =>
      match nonDecimalIntegerLiteral l with
      | Some v => v
      | None =>
          let signed :=
            if Ascii.eqb c "-"%char
            then option_map PrimFloat.opp (strUnsignedDecimalLiteral r)
            else if Ascii.eqb c "+"%char then strUnsignedDecimalLiteral r
            else strUnsignedDecimalLiteral l in
          match signed with
          | Some v => v
          | None => nan
          end
      end
  end.

(** [Number(v)] for a value that is a string or [undefined]. *)
Definition Number (v : option string) : float :=
  match v with
  | Some s => StringToNumber s
  | None => nan
  end.

Definition isNaN (x : float) : bool := is_nan x.

End JS.

Open Scope float_scope.

(** ** The types the evaluator imports *)

(** [TokenType] is a string and [FormulaType] an array of tokens. *)
Abbreviation TokenType := string (only parsing).
Abbreviation FormulaType := (list string) (only parsing).

(** What an array read or a property read can yield where the source
    expects a token: the token, or [undefined]. *)
Abbreviation Token := (option string) (only parsing).

(** Modelled from the spec: the class [Cell] ([./Cell] is not part of the
    sources at hand), as the triple that the evaluator reads through
    [getFormula], [getValue] and [getError]. *)
Record Cell := {
  getFormula : FormulaType;
  getValue : float;
  getError : string
}.

(** Modelled from the spec: [SheetMemory] ([./SheetMemory] is not part of the
    sources at hand), as the read-only lookup [getCellByLabel] from a label
    to a cell. *)
Record SheetMemory := {
  getCellByLabel : Token -> Cell
}.

(** The two imports that the evaluator uses and whose text is not part of
    the sources at hand are parameters of the development: the static method
    [Cell.isValidCellLabel] and the constants of [ErrorMessages]. *)
Class Imports := {
  isValidCellLabel : Token -> bool;
  emptyFormula : string;
  invalidFormula : string;
  divideByZero : string;
  invalidCell : string
}.

(** ** The evaluator object *)

Record FormulaEvaluator := {
  _currentTokenIndex : nat;
  _errorOccurred : bool;
  _errorMessage : string;
  _currentFormula : FormulaType;
  _lastResult : float;
  _sheetMemory : SheetMemory;
  _result : float
}.

(** [new FormulaEvaluator(memory)], with the fields' initialisers. *)
Definition constructor (memory : SheetMemory) : FormulaEvaluator :=
  {| _currentTokenIndex := 0;
     _errorOccurred := false;
     _errorMessage := "";
     _currentFormula := [];
     _lastResult := 0;
     _sheetMemory := memory;
     _result := 0 |}.

(** Field updates. *)
Definition set_currentTokenIndex (i : nat) (this : FormulaEvaluator) :=
  {| _currentTokenIndex := i;
     _errorOccurred := _errorOccurred this;
     _errorMessage := _errorMessage this;
     _currentFormula := _currentFormula this;
     _lastResult := _lastResult this;
     _sheetMemory := _sheetMemory this;
     _result := _result this |}.

Definition set_errorOccurred (b : bool) (this : FormulaEvaluator) :=
  {| _currentTokenIndex := _currentTokenIndex this;
     _errorOccurred := b;
     _errorMessage := _errorMessage this;
     _currentFormula := _currentFormula this;
     _lastResult := _lastResult this;
     _sheetMemory := _sheetMemory this;
     _result := _result this |}.

Definition set_errorMessage (m : string) (this : FormulaEvaluator) :=
  {| _currentTokenIndex := _currentTokenIndex this;
     _errorOccurred := _errorOccurred this;
     _errorMessage := m;
     _currentFormula := _currentFormula this;
     _lastResult := _lastResult this;
     _sheetMemory := _sheetMemory this;
     _result := _result this |}.

Definition set_currentFormula (f : FormulaType) (this : FormulaEvaluator) :=
  {| _currentTokenIndex := _currentTokenIndex this;
     _errorOccurred := _errorOccurred this;
     _errorMessage := _errorMessage this;
     _currentFormula := f;
     _lastResult := _lastResult this;
     _sheetMemory := _sheetMemory this;
     _result := _result this |}.

Definition set_lastResult (x : float) (this : FormulaEvaluator) :=
  {| _currentTokenIndex := _currentTokenIndex this;
     _errorOccurred := _errorOccurred this;
     _errorMessage := _errorMessage this;
     _currentFormula := _currentFormula this;
     _lastResult := x;
     _sheetMemory := _sheetMemory this;
     _result := _result this |}.

Definition set_result (x : float) (this : FormulaEvaluator) :=
  {| _currentTokenIndex := _currentTokenIndex this;
     _errorOccurred := _errorOccurred this;
     _errorMessage := _errorMessage this;
     _currentFormula := _currentFormula this;
     _lastResult := _lastResult this;
     _sheetMemory := _sheetMemory this;
     _result := x |}.

(** [nextToken]: advances the cursor. *)
Definition nextToken (this : FormulaEvaluator) : FormulaEvaluator :=
  set_currentTokenIndex (S (_currentTokenIndex this)) this.

(** The getter [currentToken]: an array read, [undefined] past the end. *)
Definition currentToken (this : FormulaEvaluator) : Token :=
  nth_error (_currentFormula this) (_currentTokenIndex this).

(** [x === s] for [x] a token or [undefined] and [s] a string. *)
Definition strictEq (x : Token) (s : string) : bool :=
  match x with
  | Some t => String.eqb t s
  | None => false
  end.

Definition isCurrentToken (token : TokenType) (this : FormulaEvaluator) : bool :=
  if strictEq (currentToken this) token then true else false.

(** The getters [error] and [result]. *)
Definition error (this : FormulaEvaluator) : string := _errorMessage this.
Definition result (this : FormulaEvaluator) : float := _result this.

Definition isNumber (token : Token) : bool :=
  negb (JS.isNaN (JS.Number token)).

(** The truth value of a string in a condition: it is not empty. *)
Definition truthy (s : string) : bool := negb (String.eqb s "").

Section Evaluator.

Context {imports : Imports}.

Definition isCellReference (token : Token) : bool := isValidCellLabel token.

Definition getCellValue (token : Token) (this : FormulaEvaluator)
  : float * string :=
  let cell := getCellByLabel (_sheetMemory this) token in
  let formula := getFormula cell in
  let error := getError cell in
  if negb (String.eqb error "") && negb (String.eqb error emptyFormula)
  then (0, error)
  else if (List.length formula =? 0)%nat
  then (0, invalidCell)
  else
    let value := getValue cell in
    (value, "").

(** The three grammar methods, with the two [while] loops as functions of
    their own.  Each call and each loop iteration takes one unit of fuel;
    [None] means that the fuel ran out. *)
Fixpoint evaluateExpression (fuel : nat) (this : FormulaEvaluator)
  {struct fuel} : option (float * FormulaEvaluator) :=
  match fuel with
  | O => None
  | S fuel =>
      match evaluateTerm fuel this with
      | Some (value, this) => evaluateExpression_while fuel value this
      | None => None
      end
  end

with evaluateExpression_while (fuel : nat) (value : float)
  (this : FormulaEvaluator) {struct fuel}
  : option (float * FormulaEvaluator) :=
  match fuel with
  | O => None
  | S fuel =>
      if strictEq (currentToken this) "+" || strictEq (currentToken this) "-"
      then
        let operator := currentToken this in
        let this := nextToken this in
        if strictEq operator "+" then
          match evaluateTerm fuel this with
          | Some (v, this) => evaluateExpression_while fuel (value + v) this
          | None => None
          end
        else if strictEq operator "-" then
          match evaluateTerm fuel this with
          | Some (v, this) => evaluateExpression_while fuel (value - v) this
          | None => None
          end
        else evaluateExpression_while fuel value this
      else Some (value, this)
  end

with evaluateTerm (fuel : nat) (this : FormulaEvaluator) {struct fuel}
  : option (float * FormulaEvaluator) :=
  match fuel with
  | O => None
  | S fuel =>
      match evaluateFactor fuel this with
      | Some (value, this) => evaluateTerm_while fuel value this
      | None => None
      end
  end

with evaluateTerm_while (fuel : nat) (value : float)
  (this : FormulaEvaluator) {struct fuel}
  : option (float * FormulaEvaluator) :=
  match fuel with
  | O => None
  | S fuel =>
      if strictEq (currentToken this) "*" || strictEq (currentToken this) "/"
      then
        let operator := currentToken this in
        let this := nextToken this in
        if strictEq operator "*" then
          match evaluateFactor fuel this with
          | Some (v, this) => evaluateTerm_while fuel (value * v) this
          | None => None
          end
        else if strictEq operator "/" then
          match evaluateFactor fuel this with
          | Some (value2, this) =>
              if PrimFloat.eqb value2 0 then
                let this := set_errorMessage divideByZero this in
                let this := set_errorOccurred true this in
                let this := set_lastResult infinity this in
                Some (_lastResult this, this)
              else evaluateTerm_while fuel (value / value2) this
          | None => None
          end
        else evaluateTerm_while fuel value this
      else Some (value, this)
  end

with evaluateFactor (fuel : nat) (this : FormulaEvaluator) {struct fuel}
  : option (float * FormulaEvaluator) :=
  match fuel with
  | O => None
  | S fuel =>
      if isNumber (currentToken this) then
        let value := JS.Number (currentToken this) in
        let this := nextToken this in
        Some (value, this)
      else if isCellReference (currentToken this) then
        let '(val, error) := getCellValue (currentToken this) this in
        let value := val in
        let this :=
          if truthy error
          then set_errorOccurred true (set_errorMessage error this)
          else this in
        let this := nextToken this in
        Some (value, this)
      else if strictEq (currentToken this) "(" then
        let this := nextToken this in
        match evaluateExpression fuel this with
        | Some (value, this) =>
            if isCurrentToken ")" this then
              let this := nextToken this in
              Some (value, this)
            else
              let this := set_errorOccurred true this in
              let this := set_errorMessage invalidFormula this in
              Some (value, this)
        | None => None
        end
      else
        let this := set_errorMessage invalidFormula this in
        let this := set_errorOccurred true this in
        Some (0, this)
  end.

(** Fuel that is enough for a formula of [n] tokens (see
    [evaluateExpression_total]). *)
Definition fuelFor (n : nat) : nat := 3 * n + 3.

(** [evaluate].  The result is the returned number and the object after
    the call. *)
Definition evaluate (formula : FormulaType) (this : FormulaEvaluator)
  : option (float * FormulaEvaluator) :=
  let this := set_currentFormula formula this in
  let this := set_currentTokenIndex 0 this in
  let this := set_errorOccurred false this in
  let this := set_errorMessage "" this in
  if (List.length formula =? 0)%nat then
    let this := set_errorMessage emptyFormula this in
    Some (0, this)
  else
    match evaluateExpression (fuelFor (List.length formula)) this with
    | Some (v, this) =>
        let this := set_result v this in
        let this := set_lastResult (_result this) this in
        if negb (_currentTokenIndex this =? List.length formula)%nat
           && negb (_errorOccurred this)
        then
          let this := set_errorMessage invalidFormula this in
          Some (0, this)
        else Some (_result this, this)
    | None => None
    end.

End Evaluator.

(** Modelled from the spec: a label is one or more letters followed by one or
    more digits; [undefined] is not a label. *)
Module SpecLabel.

Definition isLetter (c : ascii) : bool :=
  let n := nat_of_ascii c in
  ((65 <=? n) && (n <=? 90) || (97 <=? n) && (n <=? 122))%nat.

Definition isDigit (c : ascii) : bool :=
  let n := nat_of_ascii c in
  ((48 <=? n) && (n <=? 57))%nat.

Fixpoint allDigits (l : list ascii) : bool :=
  match l with
  | [] => true
  | c :: l' => isDigit c && allDigits l'
  end.

(** [seen] tells whether a letter was read already. *)
Fixpoint lettersThenDigits (seen : bool) (l : list ascii) : bool :=
  match l with
  | [] => false
  | c :: l' =>
      if isLetter c then lettersThenDigits true l'
      else seen && allDigits l
  end.

Definition isValidLabel (token : Token) : bool :=
  match token with
  | Some s => lettersThenDigits false (list_ascii_of_string s)
  | None => false
  end.

End SpecLabel.

(** Modelled from the spec: an instance of the imports, with the labels of
    the external interface and the identifiers of the error taxonomy as
    messages. *)
Definition specImports : Imports :=
  {| isValidCellLabel := SpecLabel.isValidLabel;
     emptyFormula := "EmptyFormula";
     invalidFormula := "InvalidFormula";
     divideByZero := "DivideByZero";
     invalidCell := "InvalidCell" |}.

Definition emptyCell : Cell :=
  {| getFormula := []; getValue := 0; getError := "" |}.
Definition emptySheet : SheetMemory :=
  {| getCellByLabel := fun _ => emptyCell |}.

(** ** Definitions that the properties are stated with *)

(** The object as [evaluate] leaves it before looking at the formula. *)
Definition reset (formula : FormulaType) (this : FormulaEvaluator)
  : FormulaEvaluator :=
  set_errorMessage ""
    (set_errorOccurred false
       (set_currentTokenIndex 0 (set_currentFormula formula this))).

(** The object after the top-level expression returned [v]. *)
Definition store_result (v : float) (this : FormulaEvaluator)
  : FormulaEvaluator :=
  set_lastResult v (set_result v this).

(** The number of tokens from the cursor to the end of the formula. *)
Definition remaining (this : FormulaEvaluator) : nat :=
  List.length (_currentFormula this) - _currentTokenIndex this.

(** The three ways in which the grammar methods change the object: they
    advance the cursor, record an error, or set the last result. *)
Inductive mutation : FormulaEvaluator -> FormulaEvaluator -> Prop :=
| mutation_nextToken this :
    mutation this (nextToken this)
| mutation_error this m :
    mutation this (set_errorOccurred true (set_errorMessage m this))
| mutation_lastResult this x :
    mutation this (set_lastResult x this).

Inductive mutations : FormulaEvaluator -> FormulaEvaluator -> Prop :=
| mutations_refl this : mutations this this
| mutations_step a b c : mutations a b -> mutation b c -> mutations a c.

(** What no mutation changes, and what it changes in one direction only. *)
Record preserved (a b : FormulaEvaluator) : Prop := {
  preserved_formula : _currentFormula b = _currentFormula a;
  preserved_memory : _sheetMemory b = _sheetMemory a;
  preserved_result : _result b = _result a;
  cursor_monotone : _currentTokenIndex a <= _currentTokenIndex b;
  flag_monotone : _errorOccurred a = true -> _errorOccurred b = true;
  message_with_flag :
    _errorOccurred b = false -> _errorMessage b = _errorMessage a
}.

(** A grammar method or a loop, at a given fuel: from the object to the
    returned number and the object after the call. *)
Definition GrammarMethod : Type :=
  FormulaEvaluator -> option (float * FormulaEvaluator).

(** Whatever [f] returns, it changed the object by mutations only. *)
Definition returns (f : GrammarMethod) : Prop :=
  forall this v this', f this = Some (v, this') -> mutations this this'.

(** A result of [f] at [fuel] is its result with one more unit of fuel. *)
Definition stable (f : nat -> GrammarMethod) (fuel : nat) : Prop :=
  forall this r, f fuel this = Some r -> f (S fuel) this = Some r.

(** [f] did not run out of fuel on [this]. *)
Definition total (f : GrammarMethod) (this : FormulaEvaluator) : Prop :=
  exists v this', f this = Some (v, this').

(** Two objects that differ at most in the fields [_result] and
    [_lastResult], which [evaluate] does not reset. *)
Record same_call (a b : FormulaEvaluator) : Prop := {
  same_cursor : _currentTokenIndex a = _currentTokenIndex b;
  same_flag : _errorOccurred a = _errorOccurred b;
  same_message : _errorMessage a = _errorMessage b;
  same_formula : _currentFormula a = _currentFormula b;
  same_memory : _sheetMemory a = _sheetMemory b
}.

(** Two grammar methods that return the same number and leave objects that
    are the same call, or that both run out of fuel. *)
Definition same_outcome (r1 r2 : option (float * FormulaEvaluator)) : Prop :=
  match r1, r2 with
  | Some (v1, a), Some (v2, b) => v1 = v2 /\ same_call a b
  | None, None => True
  | _, _ => False
  end.

(** A store with two cells that carry stored errors, and a third cell that
    holds a value. *)
Definition erroringCells : SheetMemory :=
  {| getCellByLabel := fun label =>
       if strictEq label "A1"
       then {| getFormula := ["1"; "/"; "0"]; getValue := infinity;
               getError := "E1" |}
       else if strictEq label "B1"
       then {| getFormula := ["C1"]; getValue := 0; getError := "E2" |}
       else if strictEq label "C1"
       then {| getFormula := ["5"]; getValue := 5; getError := "" |}
       else emptyCell |}.

(** ** Definitions for the further properties *)

(** The cursor is within the formula or at its end. *)
Definition in_bounds (this : FormulaEvaluator) : Prop :=
  (_currentTokenIndex this <= List.length (_currentFormula this))%nat.

(** An object whose error flag is set holds an error message. *)
Definition flagged_with_message (this : FormulaEvaluator) : Prop :=
  _errorOccurred this = true -> _errorMessage this <> "".

(** The outcomes of a grammar method on two objects that [R] relates: the
    same number and related objects, or no fuel left on either side. *)
Definition related (R : FormulaEvaluator -> FormulaEvaluator -> Prop)
  (r1 r2 : option (float * FormulaEvaluator)) : Prop :=
  match r1, r2 with
  | Some (v1, a), Some (v2, b) => v1 = v2 /\ R a b
  | None, None => True
  | _, _ => False
  end.

(** [b] is [a] with the tokens [pre] put before the formula and the cursor
    moved by as many places. *)
Record shifted (pre : FormulaType) (a b : FormulaEvaluator) : Prop := {
  shifted_cursor :
    _currentTokenIndex b = (List.length pre + _currentTokenIndex a)%nat;
  shifted_formula : _currentFormula b = pre ++ _currentFormula a;
  shifted_flag : _errorOccurred b = _errorOccurred a;
  shifted_message : _errorMessage b = _errorMessage a;
  shifted_memory : _sheetMemory b = _sheetMemory a
}.

(** [b] is [a] with the tokens [t :: rest] put after the formula, the cursor
    of [a] being within its formula or at its end. *)
Record extended (t : TokenType) (rest : FormulaType)
  (a b : FormulaEvaluator) : Prop := {
  extended_cursor : _currentTokenIndex b = _currentTokenIndex a;
  extended_formula : _currentFormula b = _currentFormula a ++ t :: rest;
  extended_flag : _errorOccurred b = _errorOccurred a;
  extended_message : _errorMessage b = _errorMessage a;
  extended_memory : _sheetMemory b = _sheetMemory a;
  extended_bound : in_bounds a
}.

(** [f] returns without the error flag on [a]: it returns the same number on
    an object with the tokens [t :: rest] after the formula. *)
Definition unaffected (t : TokenType) (rest : FormulaType)
  (f : GrammarMethod) : Prop :=
  forall a b v a',
    extended t rest a b ->
    f a = Some (v, a') -> _errorOccurred a' = false ->
    exists b', f b = Some (v, b') /\ extended t rest a' b'.

(** The store [erroringCells] with another cell at B1. *)
Definition otherCells : SheetMemory :=
  {| getCellByLabel := fun label =>
       if strictEq label "B1"
       then {| getFormula := ["9"]; getValue := 9; getError := "" |}
       else getCellByLabel erroringCells label |}.

(** A token that is none of the four operators. *)
Definition not_operator (t : TokenType) : Prop :=
  strictEq (Some t) "+" = false /\ strictEq (Some t) "-" = false
  /\ strictEq (Some t) "*" = false /\ strictEq (Some t) "/" = false.

Section Relations.

Context {imports : Imports}.

(** The three messages that the evaluator itself records are not empty. *)
Definition messages_not_empty : Prop :=
  emptyFormula <> "" /\ invalidFormula <> "" /\ divideByZero <> "".

(** What a grammar method does to the object, step by step: it consumes the
    token at the cursor, it moves past the end (only when the label
    predicate accepts [undefined]), or it records one of the errors. *)
Inductive step : FormulaEvaluator -> FormulaEvaluator -> Prop :=
| step_consume this t :
    currentToken this = Some t -> step this (nextToken this)
| step_undefined_label this :
    currentToken this = None -> isCellReference None = true ->
    step this (nextToken this)
| step_invalidFormula this :
    step this (set_errorOccurred true (set_errorMessage invalidFormula this))
| step_cell_error this e :
    truthy e = true ->
    step this (set_errorOccurred true (set_errorMessage e this))
| step_divideByZero this :
    step this
      (set_lastResult infinity
         (set_errorOccurred true (set_errorMessage divideByZero this))).

Inductive steps : FormulaEvaluator -> FormulaEvaluator -> Prop :=
| steps_refl this : steps this this
| steps_step a b c : steps a b -> step b c -> steps a c.

(** Two objects in the same call whose stores agree on every label that the
    formula can make the evaluator look up. *)
Record same_cells (a b : FormulaEvaluator) : Prop := {
  same_cells_cursor : _currentTokenIndex a = _currentTokenIndex b;
  same_cells_flag : _errorOccurred a = _errorOccurred b;
  same_cells_message : _errorMessage a = _errorMessage b;
  same_cells_formula : _currentFormula a = _currentFormula b;
  same_cells_named :
    forall t, In t (_currentFormula a) ->
              isValidCellLabel (Some t) = true ->
              getCellByLabel (_sheetMemory a) (Some t)
              = getCellByLabel (_sheetMemory b) (Some t);
  same_cells_undefined :
    isValidCellLabel None = true ->
    getCellByLabel (_sheetMemory a) None = getCellByLabel (_sheetMemory b) None
}.

End Relations.

(** ** The grammar methods with their steps and recorded errors *)

(** What a traced grammar method returns: the number, the object, the number
    of steps taken (one for each call of a grammar method and one for each
    test of a loop condition) and the error messages recorded, in the order
    of the assignments to [_errorMessage]. *)
Definition Traced : Type := float * FormulaEvaluator * nat * list string.

(** A traced return without its trace. *)
Definition untraced (r : option Traced) : option (float * FormulaEvaluator) :=
  match r with
  | Some (value, this, _, _) => Some (value, this)
  | None => None
  end.

(** From [a] to [b] the messages [errors] were recorded, in this order: the
    message of [b] is the last of them (that of [a] when there is none), and
    the flag of [b] is set when there is one (that of [a] otherwise). *)
Definition records (a b : FormulaEvaluator) (errors : list string) : Prop :=
  _errorMessage b = last errors (_errorMessage a)
  /\ (errors = [] -> _errorOccurred b = _errorOccurred a)
  /\ (errors <> [] -> _errorOccurred b = true).

Section Traced.

Context {imports : Imports}.

(** The three grammar methods and the two loops once more, statement by
    statement as in [evaluateExpression] and the others, with the count of
    the steps and the list of the errors recorded. *)
Fixpoint evaluateExpression_traced (fuel : nat) (this : FormulaEvaluator)
  {struct fuel} : option Traced :=
  match fuel with
  | O => None
  | S fuel =>
      match evaluateTerm_traced fuel this with
      | Some (value, this, n, errors) =>
          match evaluateExpression_while_traced fuel value this with
          | Some (value, this, m, errors') =>
              Some (value, this, S (n + m), errors ++ errors')
          | None => None
          end
      | None => None
      end
  end

with evaluateExpression_while_traced (fuel : nat) (value : float)
  (this : FormulaEvaluator) {struct fuel} : option Traced :=
  match fuel with
  | O => None
  | S fuel =>
      if strictEq (currentToken this) "+" || strictEq (currentToken this) "-"
      then
        let operator := currentToken this in
        let this := nextToken this in
        if strictEq operator "+" then
          match evaluateTerm_traced fuel this with
          | Some (v, this, n, errors) =>
              match evaluateExpression_while_traced fuel (value + v) this with
              | Some (value, this, m, errors') =>
                  Some (value, this, S (n + m), errors ++ errors')
              | None => None
              end
          | None => None
          end
        else if strictEq operator "-" then
          match evaluateTerm_traced fuel this with
          | Some (v, this, n, errors) =>
              match evaluateExpression_while_traced fuel (value - v) this with
              | Some (value, this, m, errors') =>
                  Some (value, this, S (n + m), errors ++ errors')
              | None => None
              end
          | None => None
          end
        else
          match evaluateExpression_while_traced fuel value this with
          | Some (value, this, m, errors') => Some (value, this, S m, errors')
          | None => None
          end
      else Some (value, this, 1%nat, [])
  end

with evaluateTerm_traced (fuel : nat) (this : FormulaEvaluator) {struct fuel}
  : option Traced :=
  match fuel with
  | O => None
  | S fuel =>
      match evaluateFactor_traced fuel this with
      | Some (value, this, n, errors) =>
          match evaluateTerm_while_traced fuel value this with
          | Some (value, this, m, errors') =>
              Some (value, this, S (n + m), errors ++ errors')
          | None => None
          end
      | None => None
      end
  end

with evaluateTerm_while_traced (fuel : nat) (value : float)
  (this : FormulaEvaluator) {struct fuel} : option Traced :=
  match fuel with
  | O => None
  | S fuel =>
      if strictEq (currentToken this) "*" || strictEq (currentToken this) "/"
      then
        let operator := currentToken this in
        let this := nextToken this in
        if strictEq operator "*" then
          match evaluateFactor_traced fuel this with
          | Some (v, this, n, errors) =>
              match evaluateTerm_while_traced fuel (value * v) this with
              | Some (value, this, m, errors') =>
                  Some (value, this, S (n + m), errors ++ errors')
              | None => None
              end
          | None => None
          end
        else if strictEq operator "/" then
          match evaluateFactor_traced fuel this with
          | Some (value2, this, n, errors) =>
              if PrimFloat.eqb value2 0 then
                let this := set_errorMessage divideByZero this in
                let this := set_errorOccurred true this in
                let this := set_lastResult infinity this in
                Some (_lastResult this, this, S n, errors ++ [divideByZero])
              else
                match evaluateTerm_while_traced fuel (value / value2) this with
                | Some (value, this, m, errors') =>
                    Some (value, this, S (n + m), errors ++ errors')
                | None => None
                end
          | None => None
          end
        else
          match evaluateTerm_while_traced fuel value this with
          | Some (value, this, m, errors') => Some (value, this, S m, errors')
          | None => None
          end
      else Some (value, this, 1%nat, [])
  end

with evaluateFactor_traced (fuel : nat) (this : FormulaEvaluator)
  {struct fuel} : option Traced :=
  match fuel with
  | O => None
  | S fuel =>
      if isNumber (currentToken this) then
        let value := JS.Number (currentToken this) in
        let this := nextToken this in
        Some (value, this, 1%nat, [])
      else if isCellReference (currentToken this) then
        let '(val, error) := getCellValue (currentToken this) this in
        let value := val in
        if truthy error then
          let this := set_errorMessage error this in
          let this := set_errorOccurred true this in
          let this := nextToken this in
          Some (value, this, 1%nat, [error])
        else
          let this := nextToken this in
          Some (value, this, 1%nat, [])
      else if strictEq (currentToken this) "(" then
        let this := nextToken this in
        match evaluateExpression_traced fuel this with
        | Some (value, this, n, errors) =>
            if isCurrentToken ")" this then
              let this := nextToken this in
              Some (value, this, S n, errors)
            else
              let this := set_errorOccurred true this in
              let this := set_errorMessage invalidFormula this in
              Some (value, this, S n, errors ++ [invalidFormula])
        | None => None
        end
      else
        let this := set_errorMessage invalidFormula this in
        let this := set_errorOccurred true this in
        Some (0, this, 1%nat, [invalidFormula])
  end.

End Traced.

(** ** Unfolding equations *)

Section Equations.

Context {imports : Imports}.

Lemma evaluateExpression_S fuel this :
  evaluateExpression (S fuel) this =
  match evaluateTerm fuel this with
  | Some (value, this) => evaluateExpression_while fuel value this
  | None => None
  end.
Proof. reflexivity. Qed.

Lemma evaluateTerm_S fuel this :
  evaluateTerm (S fuel) this =
  match evaluateFactor fuel this with
  | Some (value, this) => evaluateTerm_while fuel value this
  | None => None
  end.
Proof. reflexivity. Qed.

Lemma evaluateExpression_while_S fuel value this :
  evaluateExpression_while (S fuel) value this =
  if strictEq (currentToken this) "+" || strictEq (currentToken this) "-"
  then
    if strictEq (currentToken this) "+" then
      match evaluateTerm fuel (nextToken this) with
      | Some (v, this) => evaluateExpression_while fuel (value + v) this
      | None => None
      end
    else if strictEq (currentToken this) "-" then
      match evaluateTerm fuel (nextToken this) with
      | Some (v, this) => evaluateExpression_while fuel (value - v) this
      | None => None
      end
    else evaluateExpression_while fuel value (nextToken this)
  else Some (value, this).
Proof. reflexivity. Qed.

Lemma evaluateTerm_while_S fuel value this :
  evaluateTerm_while (S fuel) value this =
  if strictEq (currentToken this) "*" || strictEq (currentToken this) "/"
  then
    if strictEq (currentToken this) "*" then
      match evaluateFactor fuel (nextToken this) with
      | Some (v, this) => evaluateTerm_while fuel (value * v) this
      | None => None
      end
    else if strictEq (currentToken this) "/" then
      match evaluateFactor fuel (nextToken this) with
      | Some (value2, this) =>
          if PrimFloat.eqb value2 0 then
            Some (infinity,
                  set_lastResult infinity
                    (set_errorOccurred true
                       (set_errorMessage divideByZero this)))
          else evaluateTerm_while fuel (value / value2) this
      | None => None
      end
    else evaluateTerm_while fuel value (nextToken this)
  else Some (value, this).
Proof. reflexivity. Qed.

Lemma evaluateFactor_S fuel this :
  evaluateFactor (S fuel) this =
  if isNumber (currentToken this) then
    Some (JS.Number (currentToken this), nextToken this)
  else if isCellReference (currentToken this) then
    Some (fst (getCellValue (currentToken this) this),
          nextToken
            (if truthy (snd (getCellValue (currentToken this) this))
             then set_errorOccurred true
                    (set_errorMessage
                       (snd (getCellValue (currentToken this) this)) this)
             else this))
  else if strictEq (currentToken this) "(" then
    match evaluateExpression fuel (nextToken this) with
    | Some (value, this) =>
        if isCurrentToken ")" this
        then Some (value, nextToken this)
        else Some (value,
                   set_errorOccurred true
                     (set_errorMessage invalidFormula this))
    | None => None
    end
  else
    Some (0, set_errorOccurred true (set_errorMessage invalidFormula this)).
Proof.
  cbn [evaluateFactor].
  destruct (getCellValue (currentToken this) this); reflexivity.
Qed.

End Equations.

(** ** What the grammar methods do to the object *)

Lemma mutations_trans a b c : mutations a b -> mutations b c -> mutations a c.
Proof.
  intros Hab Hbc. induction Hbc as [|b c d _ IH Hcd].
  - assumption.
  - apply mutations_step with c; [apply IH; assumption | assumption].
Qed.

Lemma mutations_one a b : mutation a b -> mutations a b.
Proof. intro H. eapply mutations_step; [apply mutations_refl | exact H]. Qed.

Create HintDb evaluator.
#[export] Hint Resolve mutations_refl mutations_one : evaluator.
#[export] Hint Constructors mutation : evaluator.

Section Mutations.

Context {imports : Imports}.

Lemma grammar_mutations fuel :
  returns (evaluateExpression fuel)
  /\ (forall value, returns (evaluateExpression_while fuel value))
  /\ returns (evaluateTerm fuel)
  /\ (forall value, returns (evaluateTerm_while fuel value))
  /\ returns (evaluateFactor fuel).
Proof.
  unfold returns.
  induction fuel as [|fuel (IHe & IHew & IHt & IHtw & IHf)].
  - repeat split; intros; discriminate.
  - repeat split.
    + intros this v this'. rewrite evaluateExpression_S.
      destruct (evaluateTerm fuel this) as [[v1 this1]|] eqn:Ht; [|discriminate].
      intros Hw. eapply mutations_trans; eauto.
    + intros value this v this'. rewrite evaluateExpression_while_S.
      destruct (strictEq (currentToken this) "+" || strictEq (currentToken this) "-");
        [|intros [= <- <-]; apply mutations_refl].
      destruct (strictEq (currentToken this) "+").
      { destruct (evaluateTerm fuel (nextToken this)) as [[v1 this1]|] eqn:Ht;
          [|discriminate].
        intros Hw. eapply mutations_trans; [apply mutations_one, mutation_nextToken|].
        eapply mutations_trans; eauto. }
      destruct (strictEq (currentToken this) "-").
      { destruct (evaluateTerm fuel (nextToken this)) as [[v1 this1]|] eqn:Ht;
          [|discriminate].
        intros Hw. eapply mutations_trans; [apply mutations_one, mutation_nextToken|].
        eapply mutations_trans; eauto. }
      intros Hw. eapply mutations_trans; [apply mutations_one, mutation_nextToken|].
      eauto.
    + intros this v this'. rewrite evaluateTerm_S.
      destruct (evaluateFactor fuel this) as [[v1 this1]|] eqn:Hf; [|discriminate].
      intros Hw. eapply mutations_trans; eauto.
    + intros value this v this'. rewrite evaluateTerm_while_S.
      destruct (strictEq (currentToken this) "*" || strictEq (currentToken this) "/");
        [|intros [= <- <-]; apply mutations_refl].
      destruct (strictEq (currentToken this) "*").
      { destruct (evaluateFactor fuel (nextToken this)) as [[v1 this1]|] eqn:Hf;
          [|discriminate].
        intros Hw. eapply mutations_trans; [apply mutations_one, mutation_nextToken|].
        eapply mutations_trans; eauto. }
      destruct (strictEq (currentToken this) "/").
      { destruct (evaluateFactor fuel (nextToken this)) as [[v1 this1]|] eqn:Hf;
          [|discriminate].
        destruct (PrimFloat.eqb v1 0).
        - intros [= <- <-].
          eapply mutations_trans; [apply mutations_one, mutation_nextToken|].
          eapply mutations_trans; [eauto|].
          eapply mutations_step; [apply mutations_one, mutation_error|].
          apply mutation_lastResult.
        - intros Hw.
          eapply mutations_trans; [apply mutations_one, mutation_nextToken|].
          eapply mutations_trans; eauto. }
      intros Hw. eapply mutations_trans; [apply mutations_one, mutation_nextToken|].
      eauto.
    + intros this v this'. rewrite evaluateFactor_S.
      destruct (isNumber (currentToken this)).
      { intros [= <- <-]. auto with evaluator. }
      destruct (isCellReference (currentToken this)).
      { intros [= <- <-].
        destruct (truthy _).
        - eapply mutations_step; [apply mutations_one, mutation_error|].
          apply mutation_nextToken.
        - auto with evaluator. }
      destruct (strictEq (currentToken this) "(").
      { destruct (evaluateExpression fuel (nextToken this)) as [[v1 this1]|] eqn:He;
          [|discriminate].
        destruct (isCurrentToken ")" this1); intros [= <- <-].
        - eapply mutations_trans; [apply mutations_one, mutation_nextToken|].
          eapply mutations_step; [eauto|apply mutation_nextToken].
        - eapply mutations_trans; [apply mutations_one, mutation_nextToken|].
          eapply mutations_step; [eauto|apply mutation_error]. }
      intros [= <- <-]. auto with evaluator.
Qed.

Lemma evaluateExpression_mutations fuel this v this' :
  evaluateExpression fuel this = Some (v, this') -> mutations this this'.
Proof. apply (grammar_mutations fuel). Qed.

Lemma evaluateTerm_mutations fuel this v this' :
  evaluateTerm fuel this = Some (v, this') -> mutations this this'.
Proof. apply (grammar_mutations fuel). Qed.

Lemma evaluateFactor_mutations fuel this v this' :
  evaluateFactor fuel this = Some (v, this') -> mutations this this'.
Proof. apply (grammar_mutations fuel). Qed.

Lemma evaluateTerm_while_mutations fuel value this v this' :
  evaluateTerm_while fuel value this = Some (v, this') -> mutations this this'.
Proof. apply (grammar_mutations fuel). Qed.

Lemma evaluateExpression_while_mutations fuel value this v this' :
  evaluateExpression_while fuel value this = Some (v, this') ->
  mutations this this'.
Proof. apply (grammar_mutations fuel). Qed.

End Mutations.

Lemma mutations_preserved a b : mutations a b -> preserved a b.
Proof.
  induction 1 as [a | a b c _ [Hf Hm Hr Hc Hfl Hmsg] Hstep].
  - split; auto.
  - destruct Hstep; split; cbn; auto; try discriminate.
Qed.

(** ** Fuel *)

Lemma strictEq_true x s : strictEq x s = true -> x = Some s.
Proof.
  destruct x as [t|]; cbn; [|discriminate].
  intros H. apply String.eqb_eq in H. subst. reflexivity.
Qed.

Lemma remaining_nextToken this t :
  currentToken this = Some t -> S (remaining (nextToken this)) = remaining this.
Proof.
  unfold currentToken, remaining. intros H.
  assert (_currentTokenIndex this < List.length (_currentFormula this))
    by (apply nth_error_Some; rewrite H; discriminate).
  cbn. lia.
Qed.

Lemma remaining_mutations a b : mutations a b -> remaining b <= remaining a.
Proof.
  intros H. destruct (mutations_preserved a b H) as [Hf _ _ Hc _ _].
  unfold remaining. rewrite Hf. lia.
Qed.

Section Fuel.

Context {imports : Imports}.

(** A result does not change when more fuel is given. *)
Lemma fuel_S fuel :
  stable evaluateExpression fuel
  /\ (forall value,
        stable (fun n => evaluateExpression_while n value) fuel)
  /\ stable evaluateTerm fuel
  /\ (forall value, stable (fun n => evaluateTerm_while n value) fuel)
  /\ stable evaluateFactor fuel.
Proof.
  unfold stable.
  induction fuel as [|fuel (IHe & IHew & IHt & IHtw & IHf)].
  - repeat split; intros; discriminate.
  - repeat split.
    + intros this r.
      rewrite (evaluateExpression_S (S fuel)), (evaluateExpression_S fuel).
      destruct (evaluateTerm fuel this) as [[v1 this1]|] eqn:Ht; [|discriminate].
      rewrite (IHt _ _ Ht). apply IHew.
    + intros value this r.
      rewrite (evaluateExpression_while_S (S fuel)),
        (evaluateExpression_while_S fuel).
      destruct (strictEq (currentToken this) "+" || strictEq (currentToken this) "-");
        [|auto].
      destruct (strictEq (currentToken this) "+").
      { destruct (evaluateTerm fuel (nextToken this)) as [[v1 this1]|] eqn:Ht;
          [|discriminate].
        rewrite (IHt _ _ Ht). apply IHew. }
      destruct (strictEq (currentToken this) "-").
      { destruct (evaluateTerm fuel (nextToken this)) as [[v1 this1]|] eqn:Ht;
          [|discriminate].
        rewrite (IHt _ _ Ht). apply IHew. }
      apply IHew.
    + intros this r.
      rewrite (evaluateTerm_S (S fuel)), (evaluateTerm_S fuel).
      destruct (evaluateFactor fuel this) as [[v1 this1]|] eqn:Hf; [|discriminate].
      rewrite (IHf _ _ Hf). apply IHtw.
    + intros value this r.
      rewrite (evaluateTerm_while_S (S fuel)), (evaluateTerm_while_S fuel).
      destruct (strictEq (currentToken this) "*" || strictEq (currentToken this) "/");
        [|auto].
      destruct (strictEq (currentToken this) "*").
      { destruct (evaluateFactor fuel (nextToken this)) as [[v1 this1]|] eqn:Hf;
          [|discriminate].
        rewrite (IHf _ _ Hf). apply IHtw. }
      destruct (strictEq (currentToken this) "/").
      { destruct (evaluateFactor fuel (nextToken this)) as [[v1 this1]|] eqn:Hf;
          [|discriminate].
        rewrite (IHf _ _ Hf).
        destruct (PrimFloat.eqb v1 0); [auto|apply IHtw]. }
      apply IHtw.
    + intros this r.
      rewrite (evaluateFactor_S (S fuel)), (evaluateFactor_S fuel).
      destruct (isNumber (currentToken this)); [auto|].
      destruct (isCellReference (currentToken this)); [auto|].
      destruct (strictEq (currentToken this) "("); [|auto].
      destruct (evaluateExpression fuel (nextToken this)) as [[v1 this1]|] eqn:He;
        [|discriminate].
      rewrite (IHe _ _ He). auto.
Qed.

Lemma evaluateExpression_fuel_le fuel fuel' this r :
  fuel <= fuel' ->
  evaluateExpression fuel this = Some r ->
  evaluateExpression fuel' this = Some r.
Proof.
  induction 1 as [|m _ IH]; [auto|].
  intros H. apply (fuel_S m), IH, H.
Qed.

Lemma evaluateTerm_fuel_le fuel fuel' this r :
  fuel <= fuel' ->
  evaluateTerm fuel this = Some r ->
  evaluateTerm fuel' this = Some r.
Proof.
  induction 1 as [|m _ IH]; [auto|].
  intros H. apply (fuel_S m), IH, H.
Qed.

(** Three units of fuel per remaining token, and three more, are enough
    for an expression. *)
Lemma grammar_total fuel :
  (forall this, 3 * remaining this + 3 <= fuel ->
                total (evaluateExpression fuel) this)
  /\ (forall value this, 3 * remaining this + 1 <= fuel ->
                         total (evaluateExpression_while fuel value) this)
  /\ (forall this, 3 * remaining this + 2 <= fuel ->
                   total (evaluateTerm fuel) this)
  /\ (forall value this, 3 * remaining this + 1 <= fuel ->
                         total (evaluateTerm_while fuel value) this)
  /\ (forall this, 3 * remaining this + 1 <= fuel ->
                   total (evaluateFactor fuel) this).
Proof.
  unfold total.
  induction fuel as [|fuel (IHe & IHew & IHt & IHtw & IHf)].
  - repeat split; intros; lia.
  - repeat split.
    + intros this Hfuel. rewrite evaluateExpression_S.
      destruct (IHt this) as (v1 & this1 & Ht); [lia|]. rewrite Ht.
      apply evaluateTerm_mutations, remaining_mutations in Ht.
      apply IHew. lia.
    + intros value this Hfuel. rewrite evaluateExpression_while_S.
      destruct (strictEq (currentToken this) "+" || strictEq (currentToken this) "-")
        eqn:Hop; [|eauto].
      assert (Hr : S (remaining (nextToken this)) = remaining this).
      { apply orb_true_iff in Hop.
        destruct Hop as [Hop|Hop]; apply strictEq_true in Hop;
          eapply remaining_nextToken; eassumption. }
      destruct (IHt (nextToken this)) as (v1 & this1 & Ht); [lia|].
      rewrite Ht.
      apply evaluateTerm_mutations, remaining_mutations in Ht.
      destruct (strictEq (currentToken this) "+"); [apply IHew; lia|].
      destruct (strictEq (currentToken this) "-"); apply IHew; lia.
    + intros this Hfuel. rewrite evaluateTerm_S.
      destruct (IHf this) as (v1 & this1 & Hf); [lia|]. rewrite Hf.
      apply evaluateFactor_mutations, remaining_mutations in Hf.
      apply IHtw. lia.
    + intros value this Hfuel. rewrite evaluateTerm_while_S.
      destruct (strictEq (currentToken this) "*" || strictEq (currentToken this) "/")
        eqn:Hop; [|eauto].
      assert (Hr : S (remaining (nextToken this)) = remaining this).
      { apply orb_true_iff in Hop.
        destruct Hop as [Hop|Hop]; apply strictEq_true in Hop;
          eapply remaining_nextToken; eassumption. }
      destruct (IHf (nextToken this)) as (v1 & this1 & Hf); [lia|].
      rewrite Hf.
      apply evaluateFactor_mutations, remaining_mutations in Hf.
      destruct (strictEq (currentToken this) "*"); [apply IHtw; lia|].
      destruct (strictEq (currentToken this) "/"); [|apply IHtw; lia].
      destruct (PrimFloat.eqb v1 0); [eauto|apply IHtw; lia].
    + intros this Hfuel. rewrite evaluateFactor_S.
      destruct (isNumber (currentToken this)); [eauto|].
      destruct (isCellReference (currentToken this)); [eauto|].
      destruct (strictEq (currentToken this) "(") eqn:Hop; [|eauto].
      apply strictEq_true, remaining_nextToken in Hop.
      destruct (IHe (nextToken this)) as (v1 & this1 & He); [lia|].
      rewrite He. destruct (isCurrentToken ")" this1); eauto.
Qed.

Lemma evaluateExpression_total fuel this :
  fuelFor (remaining this) <= fuel ->
  exists v this',
    evaluateExpression fuel this = Some (v, this') /\ mutations this this'.
Proof.
  unfold fuelFor. intros Hfuel.
  destruct (grammar_total fuel) as (He & _).
  destruct (He this Hfuel) as (v & this' & H).
  exists v, this'. split; [exact H|].
  eapply evaluateExpression_mutations; exact H.
Qed.

End Fuel.

(** ** [evaluate] *)

Section Evaluate.

Context {imports : Imports}.

Lemma evaluate_empty this :
  evaluate [] this = Some (0, set_errorMessage emptyFormula (reset [] this)).
Proof. reflexivity. Qed.

Lemma evaluate_nonempty formula this :
  formula <> [] ->
  evaluate formula this =
  match evaluateExpression (fuelFor (List.length formula)) (reset formula this)
  with
  | Some (v, this') =>
      if negb (_currentTokenIndex this' =? List.length formula)%nat
         && negb (_errorOccurred this')
      then Some (0, set_errorMessage invalidFormula (store_result v this'))
      else Some (v, store_result v this')
  | None => None
  end.
Proof.
  intros Hne. unfold evaluate.
  destruct formula as [|t formula]; [contradiction|].
  change (List.length (t :: formula) =? 0)%nat with false. cbv iota.
  fold (reset (t :: formula) this).
  destruct (evaluateExpression _ _) as [[v this']|]; reflexivity.
Qed.

Lemma remaining_reset formula this :
  remaining (reset formula this) = List.length formula.
Proof. unfold remaining. cbn. lia. Qed.

Lemma evaluate_total formula this :
  exists v this', evaluate formula this = Some (v, this').
Proof.
  destruct formula as [|t formula].
  - rewrite evaluate_empty. eauto.
  - rewrite evaluate_nonempty by discriminate.
    destruct (evaluateExpression_total
                (fuelFor (List.length (t :: formula)))
                (reset (t :: formula) this)) as (v & this' & He & _).
    { rewrite remaining_reset. auto. }
    rewrite He.
    destruct (negb _ && negb _); eauto.
Qed.

End Evaluate.

(** ** How the term loop ends *)

Section TermLoop.

Context {imports : Imports}.

(** The term loop ends at a token that is neither [*] nor [/], or by a
    division by zero, and then with infinity and DivideByZero. *)
Lemma evaluateTerm_while_exit fuel :
  forall value this v this',
    evaluateTerm_while fuel value this = Some (v, this') ->
    strictEq (currentToken this') "*" || strictEq (currentToken this') "/"
    = false
    \/ (v = infinity
        /\ error this' = divideByZero
        /\ _errorOccurred this' = true
        /\ _lastResult this' = infinity).
Proof.
  induction fuel as [|fuel IH]; intros value this v this'; [discriminate|].
  rewrite evaluateTerm_while_S.
  destruct (strictEq (currentToken this) "*" || strictEq (currentToken this) "/")
    eqn:Hop; [|intros [= <- <-]; left; exact Hop].
  destruct (strictEq (currentToken this) "*").
  { destruct (evaluateFactor fuel (nextToken this)) as [[v1 this1]|];
      [apply IH|discriminate]. }
  destruct (strictEq (currentToken this) "/"); [|apply IH].
  destruct (evaluateFactor fuel (nextToken this)) as [[v1 this1]|];
    [|discriminate].
  destruct (PrimFloat.eqb v1 0); [|apply IH].
  intros [= <- <-]. right. repeat split.
Qed.

End TermLoop.

(** ** What a call depends on *)

Lemma same_call_refl a : same_call a a.
Proof. split; reflexivity. Qed.

Lemma same_call_currentToken a b :
  same_call a b -> currentToken a = currentToken b.
Proof. intros [Hc _ _ Hf _]. unfold currentToken. rewrite Hc, Hf. reflexivity. Qed.

Lemma same_call_nextToken a b :
  same_call a b -> same_call (nextToken a) (nextToken b).
Proof. intros [Hc Hfl Hm Hf Hs]. split; cbn; congruence. Qed.

Lemma same_call_error m a b :
  same_call a b ->
  same_call (set_errorOccurred true (set_errorMessage m a))
            (set_errorOccurred true (set_errorMessage m b)).
Proof. intros [Hc Hfl Hm Hf Hs]. split; cbn; congruence. Qed.

Lemma same_call_lastResult x y a b :
  same_call a b -> same_call (set_lastResult x a) (set_lastResult y b).
Proof. intros [Hc Hfl Hm Hf Hs]. split; cbn; congruence. Qed.

Lemma same_call_result x y a b :
  same_call a b -> same_call (set_result x a) (set_result y b).
Proof. intros [Hc Hfl Hm Hf Hs]. split; cbn; congruence. Qed.

Lemma same_call_reset formula a b :
  _sheetMemory a = _sheetMemory b ->
  same_call (reset formula a) (reset formula b).
Proof. intros Hs. split; cbn; congruence. Qed.

#[export] Hint Resolve same_call_nextToken same_call_error
  same_call_lastResult same_call_result same_call_refl : evaluator.

(** The sub-call [f] on two objects that are the same call: both run out of
    fuel, or both return, and then [k] goes on with the two results. *)
Ltac same_sub_call IH a b :=
  let H := fresh "Hsub" in
  let v1 := fresh "v" in
  let a1 := fresh "a" in
  let v2 := fresh "v" in
  let b1 := fresh "b" in
  assert (H := IH a b);
  unfold same_outcome in H;
  match type of H with
  | _ -> match ?fa with _ => _ end =>
      destruct fa as [[v1 a1]|];
      match type of H with
      | _ -> match ?fb with _ => _ end =>
          destruct fb as [[v2 b1]|]
      end
  end;
  [ destruct H as [<- H]; [auto with evaluator|]
  | exfalso; apply H; auto with evaluator
  | exfalso; apply H; auto with evaluator
  | ].

Section SameCall.

Context {imports : Imports}.

Lemma same_call_getCellValue token a b :
  same_call a b -> getCellValue token a = getCellValue token b.
Proof. intros [_ _ _ _ Hs]. unfold getCellValue. rewrite Hs. reflexivity. Qed.

(** The grammar methods neither read nor keep what [_result] and
    [_lastResult] held before the call. *)
Lemma grammar_same_call fuel :
  (forall a b, same_call a b ->
               same_outcome (evaluateExpression fuel a)
                            (evaluateExpression fuel b))
  /\ (forall value a b, same_call a b ->
                        same_outcome (evaluateExpression_while fuel value a)
                                     (evaluateExpression_while fuel value b))
  /\ (forall a b, same_call a b ->
                  same_outcome (evaluateTerm fuel a) (evaluateTerm fuel b))
  /\ (forall value a b, same_call a b ->
                        same_outcome (evaluateTerm_while fuel value a)
                                     (evaluateTerm_while fuel value b))
  /\ (forall a b, same_call a b ->
                  same_outcome (evaluateFactor fuel a) (evaluateFactor fuel b)).
Proof.
  induction fuel as [|fuel (IHe & IHew & IHt & IHtw & IHf)].
  - repeat split; intros; exact I.
  - repeat split.
    + intros a b Hab. rewrite !evaluateExpression_S.
      same_sub_call IHt a b; [|exact I].
      apply IHew. assumption.
    + intros value a b Hab. rewrite !evaluateExpression_while_S.
      rewrite <- (same_call_currentToken a b Hab).
      destruct (strictEq (currentToken a) "+" || strictEq (currentToken a) "-");
        [|split; [reflexivity|assumption]].
      destruct (strictEq (currentToken a) "+").
      { same_sub_call IHt (nextToken a) (nextToken b); [|exact I].
        apply IHew. assumption. }
      destruct (strictEq (currentToken a) "-").
      { same_sub_call IHt (nextToken a) (nextToken b); [|exact I].
        apply IHew. assumption. }
      apply IHew. auto with evaluator.
    + intros a b Hab. rewrite !evaluateTerm_S.
      same_sub_call IHf a b; [|exact I].
      apply IHtw. assumption.
    + intros value a b Hab. rewrite !evaluateTerm_while_S.
      rewrite <- (same_call_currentToken a b Hab).
      destruct (strictEq (currentToken a) "*" || strictEq (currentToken a) "/");
        [|split; [reflexivity|assumption]].
      destruct (strictEq (currentToken a) "*").
      { same_sub_call IHf (nextToken a) (nextToken b); [|exact I].
        apply IHtw. assumption. }
      destruct (strictEq (currentToken a) "/").
      { same_sub_call IHf (nextToken a) (nextToken b); [|exact I].
        destruct (PrimFloat.eqb v 0).
        - split; [reflexivity|]. auto with evaluator.
        - apply IHtw. assumption. }
      apply IHtw. auto with evaluator.
    + intros a b Hab. rewrite !evaluateFactor_S.
      rewrite <- (same_call_currentToken a b Hab).
      rewrite <- (same_call_getCellValue (currentToken a) a b Hab).
      destruct (isNumber (currentToken a)).
      { split; [reflexivity|]. auto with evaluator. }
      destruct (isCellReference (currentToken a)).
      { split; [reflexivity|].
        destruct (truthy _); auto with evaluator. }
      destruct (strictEq (currentToken a) "("); [|split; auto with evaluator].
      same_sub_call IHe (nextToken a) (nextToken b); [|exact I].
      unfold isCurrentToken.
      rewrite <- (same_call_currentToken _ _ Hsub).
      destruct (strictEq (currentToken a0) ")"); split; auto with evaluator.
Qed.

(** The number that [evaluate] returns and the error that it leaves depend
    on the formula and on the store only; so does the value behind [result]
    when the formula is not empty. *)
Lemma evaluate_depends_on_formula_and_store formula ev1 ev2 :
  _sheetMemory ev1 = _sheetMemory ev2 ->
  exists v ev1' ev2',
    evaluate formula ev1 = Some (v, ev1')
    /\ evaluate formula ev2 = Some (v, ev2')
    /\ error ev1' = error ev2'
    /\ _sheetMemory ev1' = _sheetMemory ev2'
    /\ (formula <> [] -> result ev1' = result ev2').
Proof.
  intros Hs. destruct formula as [|t formula].
  - rewrite !evaluate_empty. eexists. eexists. eexists.
    repeat split; [exact Hs | congruence].
  - rewrite !evaluate_nonempty by discriminate.
    destruct (grammar_same_call (fuelFor (List.length (t :: formula))))
      as (He & _).
    specialize (He _ _ (same_call_reset (t :: formula) ev1 ev2 Hs)).
    destruct (evaluateExpression_total
                (fuelFor (List.length (t :: formula)))
                (reset (t :: formula) ev1)) as (v & a & Ha & _).
    { rewrite remaining_reset. auto. }
    rewrite Ha in He |- *.
    destruct (evaluateExpression _ (reset (t :: formula) ev2))
      as [[v2 b]|]; [|contradiction].
    destruct He as [<- [Hc Hfl Hm Hf Hmem]].
    rewrite <- Hc, <- Hfl.
    destruct (negb _ && negb _);
      eexists; eexists; eexists; repeat split; cbn; congruence.
Qed.

(** Evaluating a formula once more, with the store as it was, gives the same
    number, the same error and the same value behind [result]. *)
Lemma evaluate_again formula ev v ev' :
  evaluate formula ev = Some (v, ev') ->
  exists ev'',
    evaluate formula ev' = Some (v, ev'')
    /\ error ev'' = error ev'
    /\ result ev'' = result ev'.
Proof.
  intros He.
  assert (Hs : _sheetMemory ev = _sheetMemory ev').
  { destruct formula as [|t formula].
    - rewrite evaluate_empty in He. injection He as _ <-. reflexivity.
    - rewrite evaluate_nonempty in He by discriminate.
      destruct (evaluateExpression _ _) as [[v1 this1]|] eqn:Hx;
        [|discriminate].
      apply evaluateExpression_mutations, mutations_preserved in Hx.
      destruct Hx as [_ Hmem _ _ _ _]. cbn in Hmem.
      destruct (negb _ && negb _); injection He as _ <-; cbn; congruence. }
  destruct (evaluate_depends_on_formula_and_store formula ev ev' Hs)
    as (v0 & ev1' & ev2' & H1 & H2 & Herr & _ & Hres).
  rewrite He in H1. injection H1 as <- <-.
  exists ev2'. split; [exact H2|]. split; [congruence|].
  destruct formula as [|t formula].
  - rewrite evaluate_empty in He, H2.
    injection He as _ <-. injection H2 as _ H2. subst ev2'. reflexivity.
  - symmetry. apply Hres. discriminate.
Qed.

End SameCall.

(** ** Running the grammar methods on a formula that is given *)

(** Conditions on a token that is given are computed. *)
Ltac compute_to_bool c :=
  let b := eval vm_compute in c in
  match b with
  | true => idtac
  | false => idtac
  end;
  let H := fresh "Hcondition" in
  assert (H : c = b) by (vm_compute; reflexivity);
  rewrite !H; clear H.

Ltac compute_condition :=
  match goal with
  | |- context [isNumber (Some ?t)] => compute_to_bool (isNumber (Some t))
  | |- context [isNumber None] => compute_to_bool (isNumber None)
  | |- context [strictEq ?x ?s] => compute_to_bool (strictEq x s)
  | |- context [PrimFloat.eqb ?x ?y] => compute_to_bool (PrimFloat.eqb x y)
  | |- context [isCurrentToken ?s ?this] =>
      compute_to_bool (isCurrentToken s this)
  end.

Ltac simplify_object :=
  cbn [currentToken nth_error nextToken reset store_result
       set_currentTokenIndex set_errorOccurred set_errorMessage
       set_currentFormula set_lastResult set_result
       _currentTokenIndex _errorOccurred _errorMessage _currentFormula
       _lastResult _sheetMemory _result
       orb andb negb fst snd].

(** One call or one loop iteration; [known] rewrites with what is assumed of
    the imports and of the cells. *)
Ltac grammar_step known :=
  first [ rewrite evaluateFactor_S
        | rewrite evaluateTerm_while_S
        | rewrite evaluateTerm_S
        | rewrite evaluateExpression_while_S
        | rewrite evaluateExpression_S ];
  simplify_object;
  repeat (first [ progress known | compute_condition ]; simplify_object).

Ltac grammar_run known := repeat (grammar_step known).

Ltac nothing_known := fail.

(** [evaluate] on a formula that is given and is not empty. *)
Ltac evaluate_run known :=
  rewrite evaluate_nonempty by discriminate;
  cbn [List.length fuelFor Nat.mul Nat.add];
  grammar_run known;
  cbn [Nat.eqb negb andb].

(** Two numbers that differ: one of them is a number equal to itself and is
    not equal to the other. *)
Lemma float_neq (x y : float) :
  PrimFloat.eqb x x = true -> PrimFloat.eqb x y = false -> x <> y.
Proof. intros Hx Hxy E. rewrite <- E, Hx in Hxy. discriminate. Qed.

(** ** The steps and the recorded errors of the grammar methods *)

Lemma last_cons (A : Type) (x d : A) (l : list A) :
  last (x :: l) d = last l x.
Proof.
  revert x d. induction l as [|y l IH]; intros x d; [reflexivity|].
  change (last (x :: y :: l) d) with (last (y :: l) d).
  rewrite (IH y d), (IH y x). reflexivity.
Qed.

Lemma last_app_default (A : Type) (l l' : list A) (d : A) :
  last (l ++ l') d = last l' (last l d).
Proof.
  revert d. induction l as [|x l IH]; intros d; [reflexivity|].
  rewrite <- app_comm_cons, !last_cons. apply IH.
Qed.

Lemma records_nil a : records a a [].
Proof. repeat split. intros H. contradiction. Qed.

Lemma records_app a b c e e' :
  records a b e -> records b c e' -> records a c (e ++ e').
Proof.
  intros (Hm & Hnil & Hcons) (Hm' & Hnil' & Hcons').
  repeat split.
  - rewrite last_app_default, <- Hm. exact Hm'.
  - intros H. apply app_eq_nil in H. destruct H as [H H'].
    rewrite (Hnil' H'). apply Hnil, H.
  - intros H. destruct e' as [|x e'].
    + rewrite (Hnil' eq_refl). apply Hcons.
      rewrite app_nil_r in H. exact H.
    + apply Hcons'. discriminate.
Qed.

Lemma records_nextToken a b e :
  records a b e -> records a (nextToken b) e.
Proof. intros H. exact H. Qed.

Lemma records_error a m :
  records a (set_errorOccurred true (set_errorMessage m a)) [m].
Proof. repeat split. intros H. discriminate. Qed.

Lemma records_lastResult a b e x :
  records a b e -> records a (set_lastResult x b) e.
Proof. intros H. exact H. Qed.

Lemma remaining_nextToken_le this :
  remaining (nextToken this) <= remaining this.
Proof. unfold remaining. cbn. lia. Qed.

Lemma remaining_operator this s :
  strictEq (currentToken this) s = true ->
  S (remaining (nextToken this)) = remaining this.
Proof.
  intros H. apply strictEq_true in H.
  eapply remaining_nextToken. exact H.
Qed.

Lemma remaining_operators this s1 s2 :
  strictEq (currentToken this) s1 || strictEq (currentToken this) s2 = true ->
  S (remaining (nextToken this)) = remaining this.
Proof.
  intros H. apply orb_true_iff in H.
  destruct H as [H|H]; eapply remaining_operator; exact H.
Qed.

Section TracedLemmas.

Context {imports : Imports}.

(** Without their trace, the traced grammar methods are the grammar
    methods. *)
Lemma traced_untraced fuel :
  (forall a,
      untraced (evaluateExpression_traced fuel a) = evaluateExpression fuel a)
  /\ (forall value a,
         untraced (evaluateExpression_while_traced fuel value a)
         = evaluateExpression_while fuel value a)
  /\ (forall a, untraced (evaluateTerm_traced fuel a) = evaluateTerm fuel a)
  /\ (forall value a,
         untraced (evaluateTerm_while_traced fuel value a)
         = evaluateTerm_while fuel value a)
  /\ (forall a,
         untraced (evaluateFactor_traced fuel a) = evaluateFactor fuel a).
Proof.
  induction fuel as [|fuel (IHe & IHew & IHt & IHtw & IHf)].
  - repeat split; intros; reflexivity.
  - repeat split.
    + intros a. rewrite evaluateExpression_S, <- (IHt a).
      cbn [evaluateExpression_traced].
      destruct (evaluateTerm_traced fuel a) as [[[[v1 a1] n1] e1]|];
        cbn [untraced]; [|reflexivity].
      rewrite <- (IHew v1 a1).
      destruct (evaluateExpression_while_traced fuel v1 a1)
        as [[[[v2 a2] n2] e2]|]; reflexivity.
    + intros value a. rewrite evaluateExpression_while_S.
      cbn [evaluateExpression_while_traced].
      destruct (strictEq (currentToken a) "+" || strictEq (currentToken a) "-");
        [|reflexivity].
      destruct (strictEq (currentToken a) "+").
      { rewrite <- (IHt (nextToken a)).
        destruct (evaluateTerm_traced fuel (nextToken a))
          as [[[[v1 a1] n1] e1]|]; cbn [untraced]; [|reflexivity].
        rewrite <- (IHew (value + v1) a1).
        destruct (evaluateExpression_while_traced fuel (value + v1) a1)
          as [[[[v2 a2] n2] e2]|]; reflexivity. }
      destruct (strictEq (currentToken a) "-").
      { rewrite <- (IHt (nextToken a)).
        destruct (evaluateTerm_traced fuel (nextToken a))
          as [[[[v1 a1] n1] e1]|]; cbn [untraced]; [|reflexivity].
        rewrite <- (IHew (value - v1) a1).
        destruct (evaluateExpression_while_traced fuel (value - v1) a1)
          as [[[[v2 a2] n2] e2]|]; reflexivity. }
      rewrite <- (IHew value (nextToken a)).
      destruct (evaluateExpression_while_traced fuel value (nextToken a))
        as [[[[v2 a2] n2] e2]|]; reflexivity.
    + intros a. rewrite evaluateTerm_S, <- (IHf a).
      cbn [evaluateTerm_traced].
      destruct (evaluateFactor_traced fuel a) as [[[[v1 a1] n1] e1]|];
        cbn [untraced]; [|reflexivity].
      rewrite <- (IHtw v1 a1).
      destruct (evaluateTerm_while_traced fuel v1 a1)
        as [[[[v2 a2] n2] e2]|]; reflexivity.
    + intros value a. rewrite evaluateTerm_while_S.
      cbn [evaluateTerm_while_traced].
      destruct (strictEq (currentToken a) "*" || strictEq (currentToken a) "/");
        [|reflexivity].
      destruct (strictEq (currentToken a) "*").
      { rewrite <- (IHf (nextToken a)).
        destruct (evaluateFactor_traced fuel (nextToken a))
          as [[[[v1 a1] n1] e1]|]; cbn [untraced]; [|reflexivity].
        rewrite <- (IHtw (value * v1) a1).
        destruct (evaluateTerm_while_traced fuel (value * v1) a1)
          as [[[[v2 a2] n2] e2]|]; reflexivity. }
      destruct (strictEq (currentToken a) "/").
      { rewrite <- (IHf (nextToken a)).
        destruct (evaluateFactor_traced fuel (nextToken a))
          as [[[[v1 a1] n1] e1]|]; cbn [untraced]; [|reflexivity].
        destruct (PrimFloat.eqb v1 0); [reflexivity|].
        rewrite <- (IHtw (value / v1) a1).
        destruct (evaluateTerm_while_traced fuel (value / v1) a1)
          as [[[[v2 a2] n2] e2]|]; reflexivity. }
      rewrite <- (IHtw value (nextToken a)).
      destruct (evaluateTerm_while_traced fuel value (nextToken a))
        as [[[[v2 a2] n2] e2]|]; reflexivity.
    + intros a. rewrite evaluateFactor_S.
      cbn [evaluateFactor_traced].
      destruct (isNumber (currentToken a)); [reflexivity|].
      destruct (isCellReference (currentToken a)).
      { destruct (getCellValue (currentToken a) a) as [val err].
        cbn [fst snd]. destruct (truthy err); reflexivity. }
      destruct (strictEq (currentToken a) "("); [|reflexivity].
      rewrite <- (IHe (nextToken a)).
      destruct (evaluateExpression_traced fuel (nextToken a))
        as [[[[v1 a1] n1] e1]|]; cbn [untraced]; [|reflexivity].
      destruct (isCurrentToken ")" a1); reflexivity.
Qed.

Lemma evaluateExpression_traced_untraced fuel a :
  untraced (evaluateExpression_traced fuel a) = evaluateExpression fuel a.
Proof. apply (traced_untraced fuel). Qed.

(** The return of an expression has a trace. *)
Lemma evaluateExpression_trace fuel a v b :
  evaluateExpression fuel a = Some (v, b) ->
  exists n errors, evaluateExpression_traced fuel a = Some (v, b, n, errors).
Proof.
  rewrite <- evaluateExpression_traced_untraced.
  destruct (evaluateExpression_traced fuel a) as [[[[v1 a1] n1] e1]|];
    [|discriminate].
  intros [= <- <-]. eauto.
Qed.

(** The steps of a grammar method: at most five for each token that it
    leaves behind the cursor, and at most five more. *)
Lemma traced_steps_bound fuel :
  (forall a v b n e,
      evaluateExpression_traced fuel a = Some (v, b, n, e) ->
      n + 5 * remaining b <= 5 * remaining a + 5)
  /\ (forall value a v b n e,
         evaluateExpression_while_traced fuel value a = Some (v, b, n, e) ->
         n + 5 * remaining b <= 5 * remaining a + 1)
  /\ (forall a v b n e,
         evaluateTerm_traced fuel a = Some (v, b, n, e) ->
         n + 5 * remaining b <= 5 * remaining a + 3)
  /\ (forall value a v b n e,
         evaluateTerm_while_traced fuel value a = Some (v, b, n, e) ->
         n + 5 * remaining b <= 5 * remaining a + 1)
  /\ (forall a v b n e,
         evaluateFactor_traced fuel a = Some (v, b, n, e) ->
         n + 5 * remaining b <= 5 * remaining a + 1).
Proof.
  induction fuel as [|fuel (IHe & IHew & IHt & IHtw & IHf)].
  - repeat split; intros; discriminate.
  - repeat split.
    + intros a v b n e. cbn [evaluateExpression_traced].
      destruct (evaluateTerm_traced fuel a) as [[[[v1 a1] n1] e1]|] eqn:H1;
        [|discriminate].
      destruct (evaluateExpression_while_traced fuel v1 a1)
        as [[[[v2 a2] n2] e2]|] eqn:H2; [|discriminate].
      intros [= <- <- <- <-].
      apply IHt in H1. apply IHew in H2. lia.
    + intros value a v b n e. cbn [evaluateExpression_while_traced].
      destruct (strictEq (currentToken a) "+" || strictEq (currentToken a) "-")
        eqn:Hop; [|intros [= <- <- <- <-]; lia].
      apply remaining_operators in Hop.
      destruct (strictEq (currentToken a) "+").
      { destruct (evaluateTerm_traced fuel (nextToken a))
          as [[[[v1 a1] n1] e1]|] eqn:H1; [|discriminate].
        destruct (evaluateExpression_while_traced fuel (value + v1) a1)
          as [[[[v2 a2] n2] e2]|] eqn:H2; [|discriminate].
        intros [= <- <- <- <-].
        apply IHt in H1. apply IHew in H2. lia. }
      destruct (strictEq (currentToken a) "-").
      { destruct (evaluateTerm_traced fuel (nextToken a))
          as [[[[v1 a1] n1] e1]|] eqn:H1; [|discriminate].
        destruct (evaluateExpression_while_traced fuel (value - v1) a1)
          as [[[[v2 a2] n2] e2]|] eqn:H2; [|discriminate].
        intros [= <- <- <- <-].
        apply IHt in H1. apply IHew in H2. lia. }
      destruct (evaluateExpression_while_traced fuel value (nextToken a))
        as [[[[v2 a2] n2] e2]|] eqn:H2; [|discriminate].
      intros [= <- <- <- <-]. apply IHew in H2. lia.
    + intros a v b n e. cbn [evaluateTerm_traced].
      destruct (evaluateFactor_traced fuel a) as [[[[v1 a1] n1] e1]|] eqn:H1;
        [|discriminate].
      destruct (evaluateTerm_while_traced fuel v1 a1)
        as [[[[v2 a2] n2] e2]|] eqn:H2; [|discriminate].
      intros [= <- <- <- <-].
      apply IHf in H1. apply IHtw in H2. lia.
    + intros value a v b n e. cbn [evaluateTerm_while_traced].
      destruct (strictEq (currentToken a) "*" || strictEq (currentToken a) "/")
        eqn:Hop; [|intros [= <- <- <- <-]; lia].
      apply remaining_operators in Hop.
      destruct (strictEq (currentToken a) "*").
      { destruct (evaluateFactor_traced fuel (nextToken a))
          as [[[[v1 a1] n1] e1]|] eqn:H1; [|discriminate].
        destruct (evaluateTerm_while_traced fuel (value * v1) a1)
          as [[[[v2 a2] n2] e2]|] eqn:H2; [|discriminate].
        intros [= <- <- <- <-].
        apply IHf in H1. apply IHtw in H2. lia. }
      destruct (strictEq (currentToken a) "/").
      { destruct (evaluateFactor_traced fuel (nextToken a))
          as [[[[v1 a1] n1] e1]|] eqn:H1; [|discriminate].
        apply IHf in H1.
        destruct (PrimFloat.eqb v1 0).
        - intros [= <- <- <- <-].
          change (remaining (set_lastResult infinity
                    (set_errorOccurred true
                       (set_errorMessage divideByZero a1))))
            with (remaining a1).
          lia.
        - destruct (evaluateTerm_while_traced fuel (value / v1) a1)
            as [[[[v2 a2] n2] e2]|] eqn:H2; [|discriminate].
          intros [= <- <- <- <-]. apply IHtw in H2. lia. }
      destruct (evaluateTerm_while_traced fuel value (nextToken a))
        as [[[[v2 a2] n2] e2]|] eqn:H2; [|discriminate].
      intros [= <- <- <- <-]. apply IHtw in H2. lia.
    + intros a v b n e. cbn [evaluateFactor_traced].
      pose proof (remaining_nextToken_le a) as Hnext.
      destruct (isNumber (currentToken a)).
      { intros [= <- <- <- <-]. lia. }
      destruct (isCellReference (currentToken a)).
      { destruct (getCellValue (currentToken a) a) as [val err].
        destruct (truthy err); intros [= <- <- <- <-].
        - change (remaining (nextToken (set_errorOccurred true
                    (set_errorMessage err a))))
            with (remaining (nextToken a)).
          lia.
        - lia. }
      destruct (strictEq (currentToken a) "(") eqn:Hparen.
      2:{ intros [= <- <- <- <-].
          change (remaining (set_errorOccurred true
                    (set_errorMessage invalidFormula a)))
            with (remaining a).
          lia. }
      apply remaining_operator in Hparen.
      destruct (evaluateExpression_traced fuel (nextToken a))
        as [[[[v1 a1] n1] e1]|] eqn:H1; [|discriminate].
      apply IHe in H1.
      pose proof (remaining_nextToken_le a1) as Hnext1.
      destruct (isCurrentToken ")" a1); intros [= <- <- <- <-].
      * lia.
      * change (remaining (set_errorMessage invalidFormula
                  (set_errorOccurred true a1)))
          with (remaining a1).
        lia.
Qed.

(** The message that a grammar method leaves is the last one that it
    recorded. *)
Lemma traced_records fuel :
  (forall a v b n e,
      evaluateExpression_traced fuel a = Some (v, b, n, e) -> records a b e)
  /\ (forall value a v b n e,
         evaluateExpression_while_traced fuel value a = Some (v, b, n, e) ->
         records a b e)
  /\ (forall a v b n e,
         evaluateTerm_traced fuel a = Some (v, b, n, e) -> records a b e)
  /\ (forall value a v b n e,
         evaluateTerm_while_traced fuel value a = Some (v, b, n, e) ->
         records a b e)
  /\ (forall a v b n e,
         evaluateFactor_traced fuel a = Some (v, b, n, e) -> records a b e).
Proof.
  induction fuel as [|fuel (IHe & IHew & IHt & IHtw & IHf)].
  - split; [|split; [|split; [|split]]]; intros; discriminate.
  - split; [|split; [|split; [|split]]].
    + intros a v b n e. cbn [evaluateExpression_traced].
      destruct (evaluateTerm_traced fuel a) as [[[[v1 a1] n1] e1]|] eqn:H1;
        [|discriminate].
      destruct (evaluateExpression_while_traced fuel v1 a1)
        as [[[[v2 a2] n2] e2]|] eqn:H2; [|discriminate].
      intros [= <- <- <- <-].
      eapply records_app; eauto.
    + intros value a v b n e. cbn [evaluateExpression_while_traced].
      destruct (strictEq (currentToken a) "+" || strictEq (currentToken a) "-");
        [|intros [= <- <- <- <-]; apply records_nil].
      destruct (strictEq (currentToken a) "+").
      { destruct (evaluateTerm_traced fuel (nextToken a))
          as [[[[v1 a1] n1] e1]|] eqn:H1; [|discriminate].
        destruct (evaluateExpression_while_traced fuel (value + v1) a1)
          as [[[[v2 a2] n2] e2]|] eqn:H2; [|discriminate].
        intros [= <- <- <- <-].
        eapply records_app; [apply (IHt _ _ _ _ _ H1)|eauto]. }
      destruct (strictEq (currentToken a) "-").
      { destruct (evaluateTerm_traced fuel (nextToken a))
          as [[[[v1 a1] n1] e1]|] eqn:H1; [|discriminate].
        destruct (evaluateExpression_while_traced fuel (value - v1) a1)
          as [[[[v2 a2] n2] e2]|] eqn:H2; [|discriminate].
        intros [= <- <- <- <-].
        eapply records_app; [apply (IHt _ _ _ _ _ H1)|eauto]. }
      destruct (evaluateExpression_while_traced fuel value (nextToken a))
        as [[[[v2 a2] n2] e2]|] eqn:H2; [|discriminate].
      intros [= <- <- <- <-]. apply (IHew _ _ _ _ _ _ H2).
    + intros a v b n e. cbn [evaluateTerm_traced].
      destruct (evaluateFactor_traced fuel a) as [[[[v1 a1] n1] e1]|] eqn:H1;
        [|discriminate].
      destruct (evaluateTerm_while_traced fuel v1 a1)
        as [[[[v2 a2] n2] e2]|] eqn:H2; [|discriminate].
      intros [= <- <- <- <-].
      eapply records_app; eauto.
    + intros value a v b n e. cbn [evaluateTerm_while_traced].
      destruct (strictEq (currentToken a) "*" || strictEq (currentToken a) "/");
        [|intros [= <- <- <- <-]; apply records_nil].
      destruct (strictEq (currentToken a) "*").
      { destruct (evaluateFactor_traced fuel (nextToken a))
          as [[[[v1 a1] n1] e1]|] eqn:H1; [|discriminate].
        destruct (evaluateTerm_while_traced fuel (value * v1) a1)
          as [[[[v2 a2] n2] e2]|] eqn:H2; [|discriminate].
        intros [= <- <- <- <-].
        eapply records_app; [apply (IHf _ _ _ _ _ H1)|eauto]. }
      destruct (strictEq (currentToken a) "/").
      { destruct (evaluateFactor_traced fuel (nextToken a))
          as [[[[v1 a1] n1] e1]|] eqn:H1; [|discriminate].
        apply IHf in H1.
        destruct (PrimFloat.eqb v1 0).
        - intros [= <- <- <- <-].
          eapply records_app; [exact H1|].
          apply (records_lastResult a1 _ _ infinity), records_error.
        - destruct (evaluateTerm_while_traced fuel (value / v1) a1)
            as [[[[v2 a2] n2] e2]|] eqn:H2; [|discriminate].
          intros [= <- <- <- <-].
          eapply records_app; [exact H1|eauto]. }
      destruct (evaluateTerm_while_traced fuel value (nextToken a))
        as [[[[v2 a2] n2] e2]|] eqn:H2; [|discriminate].
      intros [= <- <- <- <-]. apply (IHtw _ _ _ _ _ _ H2).
    + intros a v b n e. cbn [evaluateFactor_traced].
      destruct (isNumber (currentToken a)).
      { intros [= <- <- <- <-]. apply records_nextToken, records_nil. }
      destruct (isCellReference (currentToken a)).
      { destruct (getCellValue (currentToken a) a) as [val err].
        destruct (truthy err); intros [= <- <- <- <-].
        - apply records_nextToken, records_error.
        - apply records_nextToken, records_nil. }
      destruct (strictEq (currentToken a) "("); [|intros [= <- <- <- <-];
                                                   apply records_error].
      destruct (evaluateExpression_traced fuel (nextToken a))
        as [[[[v1 a1] n1] e1]|] eqn:H1; [|discriminate].
      apply IHe in H1.
      destruct (isCurrentToken ")" a1); intros [= <- <- <- <-].
      * exact H1.
      * eapply records_app; [exact H1|]. apply records_error.
Qed.

End TracedLemmas.

(** ** The properties of the evaluator *)

Section Properties.

Context {imports : Imports}.

(** C1. Precedence and left-to-right associativity over the grammar
    expression -> term -> factor: [2 + 3 * 4] evaluates to 14 and
    [( 2 + 3 ) * 4] to 20, both with the empty error; two operators of
    one level apply from left to right ([8 - 2 - 2] is 4 and [8 / 2 / 2]
    is 2).  The label predicate is assumed to reject the token "(". *)
Theorem precedence_and_associativity (this : FormulaEvaluator) :
  isValidCellLabel (Some "(") = false ->
  (exists this',
      evaluate ["2"; "+"; "3"; "*"; "4"] this = Some (14, this')
      /\ error this' = "" /\ result this' = 14)
  /\ (exists this',
         evaluate ["("; "2"; "+"; "3"; ")"; "*"; "4"] this = Some (20, this')
         /\ error this' = "" /\ result this' = 20)
  /\ (exists this',
         evaluate ["8"; "-"; "2"; "-"; "2"] this = Some (4, this')
         /\ error this' = "")
  /\ (exists this',
         evaluate ["8"; "/"; "2"; "/"; "2"] this = Some (2, this')
         /\ error this' = "").
Proof.
  intros Hparen. repeat split.
  - evaluate_run nothing_known. eexists. repeat split; reflexivity.
  - evaluate_run ltac:(unfold isCellReference; rewrite ?Hparen).
    eexists. repeat split; reflexivity.
  - evaluate_run nothing_known. eexists. repeat split; reflexivity.
  - evaluate_run nothing_known. eexists. repeat split; reflexivity.
Qed.

(** C2. In the fold of a term, a division whose right-hand factor
    evaluates to exactly 0 sets the error to DivideByZero and the error
    flag, and the term returns positive infinity at once: the cursor stays
    where that factor left it, so no further factor of the term is
    consumed.  In particular [5 / 0] evaluates to infinity with
    DivideByZero, and in [5 / 0 * 7] the tokens [* 7] are not consumed.
    The fold of a term ends in these two ways only: at a token that is
    neither [*] nor [/], or by this return of infinity. *)
Theorem division_by_zero_ends_term :
  (forall fuel value this value2 this2,
      strictEq (currentToken this) "/" = true ->
      evaluateFactor fuel (nextToken this) = Some (value2, this2) ->
      PrimFloat.eqb value2 0 = true ->
      exists this',
        evaluateTerm_while (S fuel) value this = Some (infinity, this')
        /\ error this' = divideByZero
        /\ _errorOccurred this' = true
        /\ _lastResult this' = infinity
        /\ _currentTokenIndex this' = _currentTokenIndex this2)
  /\ (forall this, exists this',
         evaluate ["5"; "/"; "0"] this = Some (infinity, this')
         /\ error this' = divideByZero)
  /\ (forall this, exists this',
         evaluate ["5"; "/"; "0"; "*"; "7"] this = Some (infinity, this')
         /\ error this' = divideByZero
         /\ _currentTokenIndex this' = 3%nat)
  /\ (forall fuel value this v this',
         evaluateTerm_while fuel value this = Some (v, this') ->
         strictEq (currentToken this') "*"
         || strictEq (currentToken this') "/" = false
         \/ (v = infinity
             /\ error this' = divideByZero
             /\ _errorOccurred this' = true
             /\ _lastResult this' = infinity)).
Proof.
  split; [|split; [|split; [|exact evaluateTerm_while_exit]]].
  - intros fuel value this value2 this2 Hop Hf Hzero.
    rewrite evaluateTerm_while_S.
    apply strictEq_true in Hop. rewrite Hop.
    change (strictEq (Some "/") "*") with false.
    change (strictEq (Some "/") "/") with true.
    cbn [orb]. rewrite Hf, Hzero.
    eexists. repeat split; reflexivity.
  - intros this. evaluate_run nothing_known.
    eexists. repeat split; reflexivity.
  - intros this. evaluate_run nothing_known.
    eexists. repeat split; reflexivity.
Qed.

(** C3. The dereference of a cell reference: a stored error that is neither
    empty nor the empty-formula marker is returned as it is, with value 0;
    otherwise an empty stored formula yields (0, InvalidCell); otherwise
    the stored value is returned with the empty error.  The factor returns
    the value of the lookup, records its error when there is one, and
    advances the cursor in either case. *)
Theorem cell_dereference_priority (token : Token) (this : FormulaEvaluator) :
  let cell := getCellByLabel (_sheetMemory this) token in
  (getError cell <> "" -> getError cell <> emptyFormula ->
   getCellValue token this = (0, getError cell))
  /\ (getError cell = "" \/ getError cell = emptyFormula ->
      getFormula cell = [] ->
      getCellValue token this = (0, invalidCell))
  /\ (getError cell = "" \/ getError cell = emptyFormula ->
      getFormula cell <> [] ->
      getCellValue token this = (getValue cell, ""))
  /\ (forall fuel,
         currentToken this = token ->
         isNumber token = false ->
         isCellReference token = true ->
         exists this',
           evaluateFactor (S fuel) this
           = Some (fst (getCellValue token this), this')
           /\ _currentTokenIndex this' = S (_currentTokenIndex this)
           /\ (snd (getCellValue token this) <> "" ->
               error this' = snd (getCellValue token this)
               /\ _errorOccurred this' = true)
           /\ (snd (getCellValue token this) = "" ->
               error this' = error this
               /\ _errorOccurred this' = _errorOccurred this)).
Proof.
  intros cell. unfold getCellValue. fold cell. repeat split.
  - intros H1 H2.
    apply String.eqb_neq in H1, H2. rewrite H1, H2. reflexivity.
  - intros H1 H2.
    assert (E : negb (getError cell =? "")%string
                && negb (getError cell =? emptyFormula)%string = false).
    { destruct H1 as [H1|H1]; rewrite H1.
      - reflexivity.
      - rewrite String.eqb_refl. apply andb_false_r. }
    rewrite E, H2. reflexivity.
  - intros H1 H2.
    assert (E : negb (getError cell =? "")%string
                && negb (getError cell =? emptyFormula)%string = false).
    { destruct H1 as [H1|H1]; rewrite H1.
      - reflexivity.
      - rewrite String.eqb_refl. apply andb_false_r. }
    rewrite E. destruct (getFormula cell); [contradiction|reflexivity].
  - fold (getCellValue token this).
    intros fuel Htoken Hnum Hcell.
    rewrite evaluateFactor_S, Htoken, Hnum, Hcell.
    eexists. split; [reflexivity|].
    unfold truthy.
    destruct (String.eqb_spec (snd (getCellValue token this)) "") as [E|E].
    + repeat split; try reflexivity; intros; contradiction.
    + repeat split; try reflexivity; intros; contradiction.
Qed.

(** C4, as amended.  An evaluation that ends with an error is in one of
    three cases: the formula is empty and [evaluate] returns 0; or tokens
    are left over after a descent that recorded no error and [evaluate]
    returns 0; or the descent itself recorded an error and [evaluate]
    returns the value that the top-level expression computed, which need
    not be 0: it is 3 for [( 1 + 2] and infinity for [5 / 0]. *)
Theorem erroring_evaluation_result :
  (forall formula this v this',
      evaluate formula this = Some (v, this') ->
      error this' <> "" ->
      (formula = [] /\ v = 0 /\ error this' = emptyFormula)
      \/ (formula <> []
          /\ _errorOccurred this' = false
          /\ _currentTokenIndex this' <> List.length formula
          /\ v = 0
          /\ error this' = invalidFormula)
      \/ (formula <> []
          /\ _errorOccurred this' = true
          /\ v = result this'
          /\ exists this1,
              evaluateExpression (fuelFor (List.length formula))
                (reset formula this) = Some (v, this1)
              /\ error this1 = error this'))
  /\ (forall this,
         isValidCellLabel (Some "(") = false ->
         exists this',
           evaluate ["("; "1"; "+"; "2"] this = Some (3, this')
           /\ error this' = invalidFormula
           /\ _errorOccurred this' = true)
  /\ (forall this, exists this',
         evaluate ["5"; "/"; "0"] this = Some (infinity, this')
         /\ error this' = divideByZero
         /\ _errorOccurred this' = true).
Proof.
  split; [|split].
  - intros formula this v this' He Herr. destruct formula as [|t formula].
    + rewrite evaluate_empty in He. injection He as <- <-.
      left. repeat split.
    + right. rewrite evaluate_nonempty in He by discriminate.
      destruct (evaluateExpression _ _) as [[v1 this1]|] eqn:Hx;
        [|discriminate].
      destruct (negb (_currentTokenIndex this1 =? _)%nat
                && negb (_errorOccurred this1)) eqn:Hc.
      * injection He as <- <-. left.
        apply andb_true_iff in Hc. destruct Hc as [Hi Hf].
        apply negb_true_iff in Hi, Hf. apply Nat.eqb_neq in Hi.
        repeat split; [discriminate | exact Hf | exact Hi].
      * injection He as <- <-. right.
        destruct (_errorOccurred this1) eqn:Hf.
        -- repeat split; [discriminate | exact Hf |].
           exists this1. split; reflexivity.
        -- exfalso. apply Herr.
           apply evaluateExpression_mutations, mutations_preserved in Hx.
           destruct Hx as [_ _ _ _ _ Hmsg]. cbn. rewrite Hmsg by exact Hf.
           reflexivity.
  - intros this Hparen.
    evaluate_run ltac:(unfold isCellReference; rewrite ?Hparen).
    eexists. repeat split; reflexivity.
  - intros this. evaluate_run nothing_known.
    eexists. repeat split; reflexivity.
Qed.

(** C5, as amended.  Within an evaluation the error flag, once set, stays
    set; the error message is overwritten by every later step that records
    an error, so the message reported at the end is that of the last error
    recorded.  Each of the four steps that record an error does so whatever
    was recorded before: a factor that reads a cell with a stored error, a
    factor at an unexpected token, a parenthesised expression that is not
    closed, and a division by zero.  In general the message that the
    top-level expression leaves is the last of the messages recorded on the
    way, and when there is one [evaluate] reports it.  So for a formula that
    adds two cells with stored errors the error of the second cell is
    reported; after a cell with a stored error, a missing closing
    parenthesis or a missing operand makes InvalidFormula the error that is
    reported, and a division by zero makes it DivideByZero. *)
Theorem last_error_is_reported :
  (forall fuel this v this',
      evaluateExpression fuel this = Some (v, this') ->
      _errorOccurred this = true -> _errorOccurred this' = true)
  /\ (forall fuel this,
         isNumber (currentToken this) = false ->
         isCellReference (currentToken this) = true ->
         let e :=
           getError (getCellByLabel (_sheetMemory this) (currentToken this))
         in
         e <> "" -> e <> emptyFormula ->
         exists this',
           evaluateFactor (S fuel) this = Some (0, this')
           /\ error this' = e /\ _errorOccurred this' = true)
  /\ (forall a b this,
         isNumber (Some a) = false -> isCellReference (Some a) = true ->
         isNumber (Some b) = false -> isCellReference (Some b) = true ->
         let ea := getError (getCellByLabel (_sheetMemory this) (Some a)) in
         let eb := getError (getCellByLabel (_sheetMemory this) (Some b)) in
         ea <> "" -> ea <> emptyFormula ->
         eb <> "" -> eb <> emptyFormula ->
         exists v this',
           evaluate [a; "+"; b] this = Some (v, this')
           /\ error this' = eb)
  /\ (forall fuel this,
         isNumber (currentToken this) = false ->
         isCellReference (currentToken this) = false ->
         strictEq (currentToken this) "(" = false ->
         exists this',
           evaluateFactor (S fuel) this = Some (0, this')
           /\ error this' = invalidFormula /\ _errorOccurred this' = true)
  /\ (forall fuel this v this1,
         isNumber (currentToken this) = false ->
         isCellReference (currentToken this) = false ->
         strictEq (currentToken this) "(" = true ->
         evaluateExpression fuel (nextToken this) = Some (v, this1) ->
         isCurrentToken ")" this1 = false ->
         exists this',
           evaluateFactor (S fuel) this = Some (v, this')
           /\ error this' = invalidFormula /\ _errorOccurred this' = true)
  /\ (forall fuel value this value2 this1,
         strictEq (currentToken this) "/" = true ->
         evaluateFactor fuel (nextToken this) = Some (value2, this1) ->
         PrimFloat.eqb value2 0 = true ->
         exists this',
           evaluateTerm_while (S fuel) value this = Some (infinity, this')
           /\ error this' = divideByZero /\ _errorOccurred this' = true)
  /\ (forall fuel this v this' n errors,
         evaluateExpression_traced fuel this = Some (v, this', n, errors) ->
         evaluateExpression fuel this = Some (v, this')
         /\ error this' = last errors (error this)
         /\ (errors <> [] -> _errorOccurred this' = true)
         /\ (errors = [] -> _errorOccurred this' = _errorOccurred this))
  /\ (forall formula this,
         formula <> [] ->
         exists v this1 n errors,
           evaluateExpression_traced (fuelFor (List.length formula))
             (reset formula this)
           = Some (v, this1, n, errors)
           /\ (errors <> [] ->
               exists this',
                 evaluate formula this = Some (v, this')
                 /\ error this' = last errors ""
                 /\ _errorOccurred this' = true))
  /\ (forall a this,
         isNumber (Some a) = false -> isCellReference (Some a) = true ->
         isValidCellLabel (Some "(") = false ->
         let ea := getError (getCellByLabel (_sheetMemory this) (Some a)) in
         ea <> "" -> ea <> emptyFormula ->
         exists v this',
           evaluate ["("; a] this = Some (v, this')
           /\ error this' = invalidFormula)
  /\ (forall a this,
         isNumber (Some a) = false -> isCellReference (Some a) = true ->
         isValidCellLabel None = false ->
         let ea := getError (getCellByLabel (_sheetMemory this) (Some a)) in
         ea <> "" -> ea <> emptyFormula ->
         exists v this',
           evaluate [a; "+"] this = Some (v, this')
           /\ error this' = invalidFormula)
  /\ (forall a this,
         isNumber (Some a) = false -> isCellReference (Some a) = true ->
         let ea := getError (getCellByLabel (_sheetMemory this) (Some a)) in
         ea <> "" -> ea <> emptyFormula ->
         exists v this',
           evaluate [a; "/"; "0"] this = Some (v, this')
           /\ error this' = divideByZero).
Proof.
  split.
  { intros fuel this v this' He.
    apply evaluateExpression_mutations, mutations_preserved in He.
    apply He. }
  split.
  { intros fuel this Hnum Hcell e H1 H2. subst e.
    apply String.eqb_neq in H1, H2.
    rewrite evaluateFactor_S, Hnum, Hcell.
    unfold getCellValue, truthy. rewrite H1, H2.
    cbn [negb andb fst snd]. rewrite H1. cbn [negb].
    eexists. repeat split; reflexivity. }
  split.
  { intros a b this Ha Hla Hb Hlb ea eb Ha1 Ha2 Hb1 Hb2. subst ea eb.
    apply String.eqb_neq in Ha1, Ha2, Hb1, Hb2.
    evaluate_run
      ltac:(unfold getCellValue, truthy;
            rewrite ?Ha, ?Hb, ?Hla, ?Hlb, ?Ha1, ?Ha2, ?Hb1, ?Hb2).
    eexists. eexists. split; reflexivity. }
  split.
  { intros fuel this Hnum Hcell Hparen.
    rewrite evaluateFactor_S, Hnum, Hcell, Hparen.
    eexists. repeat split; reflexivity. }
  split.
  { intros fuel this v this1 Hnum Hcell Hparen He Hclose.
    rewrite evaluateFactor_S, Hnum, Hcell, Hparen, He, Hclose.
    eexists. repeat split; reflexivity. }
  split.
  { intros fuel value this value2 this1 Hdiv Hf Hzero.
    assert (Hmul : strictEq (currentToken this) "*" = false).
    { apply strictEq_true in Hdiv. rewrite Hdiv. reflexivity. }
    rewrite evaluateTerm_while_S, Hmul, Hdiv. cbn [orb].
    rewrite Hf, Hzero.
    eexists. repeat split; reflexivity. }
  split.
  { intros fuel this v this' n errors Ht.
    split.
    - rewrite <- evaluateExpression_traced_untraced, Ht. reflexivity.
    - apply (proj1 (traced_records fuel)) in Ht.
      destruct Ht as (Hm & Hnil & Hcons).
      split; [exact Hm|]. split; assumption. }
  split.
  { intros formula this Hne.
    destruct (evaluateExpression_total
                (fuelFor (List.length formula)) (reset formula this))
      as (v & this1 & He & _).
    { rewrite remaining_reset. auto. }
    destruct (evaluateExpression_trace _ _ _ _ He) as (n & errors & Ht).
    exists v, this1, n, errors. split; [exact Ht|].
    intros Herrors.
    apply (proj1 (traced_records _)) in Ht.
    destruct Ht as (Hm & _ & Hflag). specialize (Hflag Herrors).
    rewrite evaluate_nonempty by exact Hne.
    rewrite He, Hflag, andb_false_r.
    eexists. split; [reflexivity|]. split; [exact Hm | exact Hflag]. }
  split.
  { intros a this Ha Hla Hparen ea Ha1 Ha2. subst ea.
    apply String.eqb_neq in Ha1, Ha2.
    evaluate_run
      ltac:(unfold getCellValue, truthy;
            rewrite ?Ha, ?Hla, ?Ha1, ?Ha2;
            unfold isCellReference; rewrite ?Hparen).
    eexists. eexists. split; reflexivity. }
  split.
  { intros a this Ha Hla Hnone ea Ha1 Ha2. subst ea.
    apply String.eqb_neq in Ha1, Ha2.
    evaluate_run
      ltac:(unfold getCellValue, truthy;
            rewrite ?Ha, ?Hla, ?Ha1, ?Ha2;
            unfold isCellReference; rewrite ?Hnone).
    eexists. eexists. split; reflexivity. }
  intros a this Ha Hla ea Ha1 Ha2. subst ea.
  apply String.eqb_neq in Ha1, Ha2.
  evaluate_run
    ltac:(unfold getCellValue, truthy;
          rewrite ?Ha, ?Hla, ?Ha1, ?Ha2).
  eexists. eexists. split; reflexivity.
Qed.

(** C6.  For [1 + 2 3], the evaluation ends with the result 3 and the error
    InvalidFormula, as the accessors [result] and [error] report them: the
    prefix [1 + 2] is consumed, its value 3 is stored as the result, and the
    token left over, at which the cursor stops with the error flag clear,
    is reported as InvalidFormula.  The number that the call of [evaluate]
    itself returns on this path is 0. *)
Theorem trailing_token_result (this : FormulaEvaluator) :
  exists this',
    evaluate ["1"; "+"; "2"; "3"] this = Some (0, this')
    /\ error this' = invalidFormula
    /\ result this' = 3
    /\ _currentTokenIndex this' = 3%nat
    /\ _errorOccurred this' = false.
Proof.
  evaluate_run nothing_known. eexists. repeat split; reflexivity.
Qed.

(** C7. For [( 1 + 2], [evaluate] returns 3 with the error InvalidFormula:
    the missing closing parenthesis is recorded as an error and the value
    of the inner expression is returned.  The label predicate is assumed
    to reject the token "(". *)
Theorem unclosed_parenthesis_keeps_inner_value (this : FormulaEvaluator) :
  isValidCellLabel (Some "(") = false ->
  exists this',
    evaluate ["("; "1"; "+"; "2"] this = Some (3, this')
    /\ error this' = invalidFormula
    /\ result this' = 3
    /\ _errorOccurred this' = true.
Proof.
  intros Hparen.
  evaluate_run ltac:(unfold isCellReference; rewrite ?Hparen).
  eexists. repeat split; reflexivity.
Qed.

(** Every iteration of the two loops starts by consuming the operator at
    the cursor. *)
Lemma evaluateTerm_while_advances fuel value this v this' :
  strictEq (currentToken this) "*" || strictEq (currentToken this) "/"
  = true ->
  evaluateTerm_while fuel value this = Some (v, this') ->
  (_currentTokenIndex this < _currentTokenIndex this')%nat.
Proof.
  intros Hop. destruct fuel as [|fuel]; [discriminate|].
  rewrite evaluateTerm_while_S, Hop.
  assert (Hnext : forall that,
             mutations (nextToken this) that ->
             (_currentTokenIndex this < _currentTokenIndex that)%nat).
  { intros that H. apply mutations_preserved in H.
    destruct H as [_ _ _ Hc _ _]. cbn in Hc. lia. }
  destruct (strictEq (currentToken this) "*").
  { destruct (evaluateFactor fuel (nextToken this)) as [[v1 this1]|] eqn:Hf;
      [|discriminate].
    intros Hw. apply Hnext.
    eapply mutations_trans;
      [eapply evaluateFactor_mutations | eapply evaluateTerm_while_mutations];
      eassumption. }
  destruct (strictEq (currentToken this) "/").
  { destruct (evaluateFactor fuel (nextToken this)) as [[v1 this1]|] eqn:Hf;
      [|discriminate].
    apply evaluateFactor_mutations in Hf.
    destruct (PrimFloat.eqb v1 0).
    - intros [= <- <-]. apply Hnext in Hf. exact Hf.
    - intros Hw. apply Hnext.
      eapply mutations_trans;
        [|eapply evaluateTerm_while_mutations]; eassumption. }
  intros Hw. apply Hnext.
  eapply evaluateTerm_while_mutations; eassumption.
Qed.

Lemma evaluateExpression_while_advances fuel value this v this' :
  strictEq (currentToken this) "+" || strictEq (currentToken this) "-"
  = true ->
  evaluateExpression_while fuel value this = Some (v, this') ->
  (_currentTokenIndex this < _currentTokenIndex this')%nat.
Proof.
  intros Hop. destruct fuel as [|fuel]; [discriminate|].
  rewrite evaluateExpression_while_S, Hop.
  assert (Hnext : forall that,
             mutations (nextToken this) that ->
             (_currentTokenIndex this < _currentTokenIndex that)%nat).
  { intros that H. apply mutations_preserved in H.
    destruct H as [_ _ _ Hc _ _]. cbn in Hc. lia. }
  destruct (strictEq (currentToken this) "+").
  { destruct (evaluateTerm fuel (nextToken this)) as [[v1 this1]|] eqn:Ht;
      [|discriminate].
    intros Hw. apply Hnext.
    eapply mutations_trans;
      [eapply evaluateTerm_mutations
      | eapply evaluateExpression_while_mutations];
      eassumption. }
  destruct (strictEq (currentToken this) "-").
  { destruct (evaluateTerm fuel (nextToken this)) as [[v1 this1]|] eqn:Ht;
      [|discriminate].
    intros Hw. apply Hnext.
    eapply mutations_trans;
      [eapply evaluateTerm_mutations
      | eapply evaluateExpression_while_mutations];
      eassumption. }
  intros Hw. apply Hnext.
  eapply evaluateExpression_while_mutations; eassumption.
Qed.

(** C8, as amended.  [evaluate] returns for every formula and every
    object (so for every store): fuel of three units per token and three
    more is enough, and more fuel does not change the outcome.  Every
    iteration of the expression loop and of the term loop strictly
    advances the cursor.  The error case of a factor leaves the cursor
    where it is and returns to the term loop, which stops there unless the
    token at the cursor is [*] or [/] (in which case the loop consumes it,
    advancing the cursor).  The number of steps is bounded by the token
    count: the top-level expression takes at most five steps (calls of a
    grammar method and tests of a loop condition) for each token and five
    more, and every expression takes at most five steps for each token that
    it consumes and five more. *)
Theorem evaluate_terminates :
  (forall formula this, exists v this',
        evaluate formula this = Some (v, this'))
  /\ (forall formula this fuel,
         fuelFor (List.length formula) <= fuel ->
         evaluateExpression fuel (reset formula this)
         = evaluateExpression (fuelFor (List.length formula))
             (reset formula this))
  /\ (forall fuel value this v this',
         strictEq (currentToken this) "*"
         || strictEq (currentToken this) "/" = true ->
         evaluateTerm_while fuel value this = Some (v, this') ->
         (_currentTokenIndex this < _currentTokenIndex this')%nat)
  /\ (forall fuel value this v this',
         strictEq (currentToken this) "+"
         || strictEq (currentToken this) "-" = true ->
         evaluateExpression_while fuel value this = Some (v, this') ->
         (_currentTokenIndex this < _currentTokenIndex this')%nat)
  /\ (forall fuel this,
         isNumber (currentToken this) = false ->
         isCellReference (currentToken this) = false ->
         strictEq (currentToken this) "(" = false ->
         let this' :=
           set_errorOccurred true (set_errorMessage invalidFormula this) in
         evaluateFactor (S fuel) this = Some (0, this')
         /\ _currentTokenIndex this' = _currentTokenIndex this
         /\ forall fuel' value,
             strictEq (currentToken this) "*" = false ->
             strictEq (currentToken this) "/" = false ->
             evaluateTerm_while (S fuel') value this'
             = Some (value, this'))
  /\ (forall formula this, exists v this' n errors,
         evaluateExpression_traced (fuelFor (List.length formula))
           (reset formula this)
         = Some (v, this', n, errors)
         /\ evaluateExpression (fuelFor (List.length formula))
              (reset formula this)
            = Some (v, this')
         /\ (n <= 5 * List.length formula + 5)%nat)
  /\ (forall fuel this v this' n errors,
         evaluateExpression_traced fuel this = Some (v, this', n, errors) ->
         evaluateExpression fuel this = Some (v, this')
         /\ (remaining this' <= remaining this)%nat
         /\ (n <= 5 * (remaining this - remaining this') + 5)%nat).
Proof.
  split; [exact evaluate_total|].
  split.
  { intros formula this fuel Hfuel.
    destruct (evaluateExpression_total
                (fuelFor (List.length formula)) (reset formula this))
      as (v & this' & He & _).
    { rewrite remaining_reset. auto. }
    rewrite He. eapply evaluateExpression_fuel_le; eassumption. }
  split; [exact evaluateTerm_while_advances|].
  split; [exact evaluateExpression_while_advances|].
  split.
  { intros fuel this Hnum Hcell Hparen this'.
    rewrite evaluateFactor_S, Hnum, Hcell, Hparen.
    repeat split.
    intros fuel' value Hmul Hdiv.
    rewrite evaluateTerm_while_S.
    change (currentToken this') with (currentToken this).
    rewrite Hmul, Hdiv. reflexivity. }
  split.
  { intros formula this.
    destruct (evaluateExpression_total
                (fuelFor (List.length formula)) (reset formula this))
      as (v & this' & He & _).
    { rewrite remaining_reset. auto. }
    destruct (evaluateExpression_trace _ _ _ _ He) as (n & errors & Ht).
    exists v, this', n, errors.
    split; [exact Ht|]. split; [exact He|].
    apply (proj1 (traced_steps_bound _)) in Ht.
    rewrite remaining_reset in Ht. lia. }
  intros fuel this v this' n errors Ht.
  split.
  { rewrite <- evaluateExpression_traced_untraced, Ht. reflexivity. }
  assert (He : evaluateExpression fuel this = Some (v, this'))
    by (rewrite <- evaluateExpression_traced_untraced, Ht; reflexivity).
  apply evaluateExpression_mutations, mutations_preserved in He.
  destruct He as [Hformula _ _ Hcursor _ _].
  apply (proj1 (traced_steps_bound _)) in Ht.
  assert (Hle : remaining this' <= remaining this)
    by (unfold remaining; rewrite Hformula; lia).
  split; [exact Hle | lia].
Qed.

(** C9.  An empty formula leaves the field behind the [result] accessor
    as the previous call left it: after the formula [5], the empty formula
    reads 5 through [result], and 0 on a new object with the same store. *)
Theorem result_accessor_stale_after_empty_formula :
  (forall this, exists this',
        evaluate [] this = Some (0, this')
        /\ error this' = emptyFormula
        /\ result this' = result this)
  /\ (forall memory, exists ev1 ev2 ev3,
         evaluate ["5"] (constructor memory) = Some (5, ev1)
         /\ evaluate [] ev1 = Some (0, ev2)
         /\ result ev2 = 5
         /\ evaluate [] (constructor memory) = Some (0, ev3)
         /\ result ev3 = 0).
Proof.
  split.
  - intros this. rewrite evaluate_empty.
    eexists. repeat split; reflexivity.
  - intros memory.
    eexists. eexists. eexists.
    split; [evaluate_run nothing_known; reflexivity|].
    rewrite !evaluate_empty. repeat split; reflexivity.
Qed.

(** C10. The empty-string token is a numeric literal: its conversion to a
    number is 0 and not NaN, a factor that reads it returns 0, advances
    the cursor and records no error, and the formula that consists of it
    evaluates to 0 with the empty error. *)
Theorem empty_string_token_is_number :
  isNumber (Some "") = true
  /\ JS.Number (Some "") = 0
  /\ (forall fuel this,
         currentToken this = Some "" ->
         evaluateFactor (S fuel) this = Some (0, nextToken this))
  /\ (forall this, exists this',
         evaluate [""] this = Some (0, this')
         /\ error this' = ""
         /\ _errorOccurred this' = false
         /\ _currentTokenIndex this' = 1%nat).
Proof.
  repeat split.
  - intros fuel this Htoken. rewrite evaluateFactor_S, Htoken. reflexivity.
  - intros this. evaluate_run nothing_known.
    eexists. repeat split; reflexivity.
Qed.

End Properties.

(** ** The steps of the grammar methods *)

Lemma isNumber_Some token :
  isNumber token = true -> exists t, token = Some t.
Proof.
  destruct token as [t|]; [eauto|].
  intros H. vm_compute in H. discriminate.
Qed.

Section Steps.

Context {imports : Imports}.

Lemma steps_trans a b c : steps a b -> steps b c -> steps a c.
Proof.
  intros Hab Hbc. induction Hbc as [|b c d _ IH Hcd].
  - assumption.
  - apply steps_step with c; [apply IH; assumption | assumption].
Qed.

Lemma steps_one a b : step a b -> steps a b.
Proof. intro H. eapply steps_step; [apply steps_refl | exact H]. Qed.

Lemma steps_operator a s b :
  strictEq (currentToken a) s = true -> steps (nextToken a) b -> steps a b.
Proof.
  intros Hop H. apply strictEq_true in Hop.
  eapply steps_trans; [apply steps_one, (step_consume a s Hop) | exact H].
Qed.

Lemma steps_operators a s1 s2 b :
  strictEq (currentToken a) s1 || strictEq (currentToken a) s2 = true ->
  steps (nextToken a) b -> steps a b.
Proof.
  intros Hop. apply orb_true_iff in Hop.
  destruct Hop as [Hop|Hop]; eapply steps_operator; eassumption.
Qed.

(** Whatever a grammar method returns, it reached it by steps. *)
Lemma grammar_steps fuel :
  (forall a v b, evaluateExpression fuel a = Some (v, b) -> steps a b)
  /\ (forall value a v b,
         evaluateExpression_while fuel value a = Some (v, b) -> steps a b)
  /\ (forall a v b, evaluateTerm fuel a = Some (v, b) -> steps a b)
  /\ (forall value a v b,
         evaluateTerm_while fuel value a = Some (v, b) -> steps a b)
  /\ (forall a v b, evaluateFactor fuel a = Some (v, b) -> steps a b).
Proof.
  induction fuel as [|fuel (IHe & IHew & IHt & IHtw & IHf)].
  - repeat split; intros; discriminate.
  - repeat split.
    + intros a v b. rewrite evaluateExpression_S.
      destruct (evaluateTerm fuel a) as [[v1 a1]|] eqn:Ht; [|discriminate].
      intros Hw. eapply steps_trans; eauto.
    + intros value a v b. rewrite evaluateExpression_while_S.
      destruct (strictEq (currentToken a) "+" || strictEq (currentToken a) "-")
        eqn:Hop; [|intros [= <- <-]; apply steps_refl].
      intros H. eapply steps_operators; [exact Hop|]. revert H.
      destruct (strictEq (currentToken a) "+").
      { destruct (evaluateTerm fuel (nextToken a)) as [[v1 a1]|] eqn:Ht;
          [|discriminate].
        intros Hw. eapply steps_trans; eauto. }
      destruct (strictEq (currentToken a) "-"); [|eauto].
      destruct (evaluateTerm fuel (nextToken a)) as [[v1 a1]|] eqn:Ht;
        [|discriminate].
      intros Hw. eapply steps_trans; eauto.
    + intros a v b. rewrite evaluateTerm_S.
      destruct (evaluateFactor fuel a) as [[v1 a1]|] eqn:Hf; [|discriminate].
      intros Hw. eapply steps_trans; eauto.
    + intros value a v b. rewrite evaluateTerm_while_S.
      destruct (strictEq (currentToken a) "*" || strictEq (currentToken a) "/")
        eqn:Hop; [|intros [= <- <-]; apply steps_refl].
      intros H. eapply steps_operators; [exact Hop|]. revert H.
      destruct (strictEq (currentToken a) "*").
      { destruct (evaluateFactor fuel (nextToken a)) as [[v1 a1]|] eqn:Hf;
          [|discriminate].
        intros Hw. eapply steps_trans; eauto. }
      destruct (strictEq (currentToken a) "/"); [|eauto].
      destruct (evaluateFactor fuel (nextToken a)) as [[v1 a1]|] eqn:Hf;
        [|discriminate].
      destruct (PrimFloat.eqb v1 0).
      * intros [= <- <-].
        eapply steps_step; [eauto|apply step_divideByZero].
      * intros Hw. eapply steps_trans; eauto.
    + intros a v b. rewrite evaluateFactor_S.
      destruct (isNumber (currentToken a)) eqn:Hnum.
      { intros [= <- <-]. apply isNumber_Some in Hnum.
        destruct Hnum as [t Ht]. apply steps_one, (step_consume a t Ht). }
      destruct (isCellReference (currentToken a)) eqn:Hcell.
      { intros [= <- <-].
        assert (Hnext : forall c,
                   currentToken c = currentToken a -> steps c (nextToken c)).
        { intros c Hc. apply steps_one.
          destruct (currentToken a) as [t|] eqn:Ht.
          - apply (step_consume c t Hc).
          - apply step_undefined_label; assumption. }
        destruct (truthy _) eqn:Htruthy.
        - eapply steps_trans;
            [apply steps_one, step_cell_error, Htruthy|].
          apply Hnext. reflexivity.
        - apply Hnext. reflexivity. }
      destruct (strictEq (currentToken a) "(") eqn:Hparen.
      { intros H. eapply steps_operator; [exact Hparen|]. revert H.
        destruct (evaluateExpression fuel (nextToken a)) as [[v1 a1]|] eqn:He;
          [|discriminate].
        unfold isCurrentToken.
        destruct (strictEq (currentToken a1) ")") eqn:Hclose;
          intros [= <- <-].
        - apply strictEq_true in Hclose.
          eapply steps_step; [eauto|apply (step_consume a1 ")" Hclose)].
        - eapply steps_step; [eauto|apply step_invalidFormula]. }
      intros [= <- <-]. apply steps_one, step_invalidFormula.
Qed.

Lemma evaluateExpression_steps fuel a v b :
  evaluateExpression fuel a = Some (v, b) -> steps a b.
Proof. apply (grammar_steps fuel). Qed.

(** A step keeps the cursor within the formula when the label predicate
    rejects [undefined]. *)
Lemma steps_in_bounds a b :
  isValidCellLabel None = false ->
  steps a b -> in_bounds a -> in_bounds b.
Proof.
  intros Hnone H. unfold in_bounds.
  induction H as [a | a b c _ IH Hstep]; [auto|].
  intros Ha. specialize (IH Ha).
  destruct Hstep as [b t Ht | b _ Hlabel | b | b e _ | b]; cbn; try exact IH.
  - unfold currentToken in Ht.
    assert (_currentTokenIndex b < List.length (_currentFormula b))%nat
      by (apply nth_error_Some; rewrite Ht; discriminate).
    lia.
  - unfold isCellReference in Hlabel. rewrite Hnone in Hlabel. discriminate.
Qed.

(** A step keeps a message beside the flag when the messages of the
    evaluator are not empty. *)
Lemma steps_flagged_with_message a b :
  invalidFormula <> "" -> divideByZero <> "" ->
  steps a b -> flagged_with_message a -> flagged_with_message b.
Proof.
  intros Hinvalid Hzero H. unfold flagged_with_message.
  induction H as [a | a b c _ IH Hstep]; [auto|].
  intros Ha. specialize (IH Ha).
  destruct Hstep as [b t Ht | b _ Hlabel | b | b e He | b]; cbn;
    try exact IH; intros _; try assumption.
  unfold truthy in He. apply negb_true_iff, String.eqb_neq in He. exact He.
Qed.

End Steps.

(** ** Grammar methods on related objects *)

(** The sub-call of [IH] on two related objects: both run out of fuel, or
    both return the same number and related objects. *)
Ltac related_sub_call IH a b :=
  let H := fresh "Hsub" in
  let v1 := fresh "v" in
  let a1 := fresh "a" in
  let v2 := fresh "v" in
  let b1 := fresh "b" in
  assert (H := IH a b);
  unfold related in H;
  match type of H with
  | _ -> match ?fa with _ => _ end =>
      destruct fa as [[v1 a1]|];
      match type of H with
      | _ -> match ?fb with _ => _ end =>
          destruct fb as [[v2 b1]|]
      end
  end;
  [ destruct H as [<- H]; [auto|]
  | exfalso; apply H; auto
  | exfalso; apply H; auto
  | ].

Section Simulation.

Context {imports : Imports}.

Variable R : FormulaEvaluator -> FormulaEvaluator -> Prop.

Hypothesis R_token : forall a b, R a b -> currentToken b = currentToken a.
Hypothesis R_cell :
  forall a b, R a b -> isCellReference (currentToken a) = true ->
              getCellValue (currentToken a) b
              = getCellValue (currentToken a) a.
Hypothesis R_nextToken : forall a b, R a b -> R (nextToken a) (nextToken b).
Hypothesis R_error :
  forall m a b, R a b ->
                R (set_errorOccurred true (set_errorMessage m a))
                  (set_errorOccurred true (set_errorMessage m b)).
Hypothesis R_lastResult :
  forall x a b, R a b -> R (set_lastResult x a) (set_lastResult x b).

(** A relation that the tokens read, the cells read and the mutations
    respect is kept by the grammar methods, which return the same number on
    related objects. *)
Lemma grammar_simulation fuel :
  (forall a b, R a b ->
               related R (evaluateExpression fuel a)
                         (evaluateExpression fuel b))
  /\ (forall value a b, R a b ->
                        related R (evaluateExpression_while fuel value a)
                                  (evaluateExpression_while fuel value b))
  /\ (forall a b, R a b ->
                  related R (evaluateTerm fuel a) (evaluateTerm fuel b))
  /\ (forall value a b, R a b ->
                        related R (evaluateTerm_while fuel value a)
                                  (evaluateTerm_while fuel value b))
  /\ (forall a b, R a b ->
                  related R (evaluateFactor fuel a) (evaluateFactor fuel b)).
Proof.
  induction fuel as [|fuel (IHe & IHew & IHt & IHtw & IHf)].
  - repeat split; intros; exact I.
  - repeat split.
    + intros a b Hab. rewrite !evaluateExpression_S.
      related_sub_call IHt a b; [|exact I].
      apply IHew. assumption.
    + intros value a b Hab. rewrite !evaluateExpression_while_S.
      rewrite (R_token a b Hab).
      destruct (strictEq (currentToken a) "+" || strictEq (currentToken a) "-");
        [|split; [reflexivity|assumption]].
      destruct (strictEq (currentToken a) "+").
      { related_sub_call IHt (nextToken a) (nextToken b); [|exact I].
        apply IHew. assumption. }
      destruct (strictEq (currentToken a) "-").
      { related_sub_call IHt (nextToken a) (nextToken b); [|exact I].
        apply IHew. assumption. }
      apply IHew. auto.
    + intros a b Hab. rewrite !evaluateTerm_S.
      related_sub_call IHf a b; [|exact I].
      apply IHtw. assumption.
    + intros value a b Hab. rewrite !evaluateTerm_while_S.
      rewrite (R_token a b Hab).
      destruct (strictEq (currentToken a) "*" || strictEq (currentToken a) "/");
        [|split; [reflexivity|assumption]].
      destruct (strictEq (currentToken a) "*").
      { related_sub_call IHf (nextToken a) (nextToken b); [|exact I].
        apply IHtw. assumption. }
      destruct (strictEq (currentToken a) "/").
      { related_sub_call IHf (nextToken a) (nextToken b); [|exact I].
        destruct (PrimFloat.eqb v 0).
        - split; [reflexivity|]. auto.
        - apply IHtw. assumption. }
      apply IHtw. auto.
    + intros a b Hab. rewrite !evaluateFactor_S.
      rewrite (R_token a b Hab).
      destruct (isNumber (currentToken a)).
      { split; [reflexivity|]. auto. }
      destruct (isCellReference (currentToken a)) eqn:Hcell.
      { rewrite (R_cell a b Hab Hcell).
        split; [reflexivity|].
        destruct (truthy _); auto. }
      destruct (strictEq (currentToken a) "("); [|split; auto].
      related_sub_call IHe (nextToken a) (nextToken b); [|exact I].
      unfold isCurrentToken.
      rewrite (R_token _ _ Hsub).
      destruct (strictEq (currentToken a0) ")"); split; auto.
Qed.

End Simulation.

Lemma shifted_token pre a b :
  shifted pre a b -> currentToken b = currentToken a.
Proof.
  intros [Hc Hf _ _ _]. unfold currentToken. rewrite Hc, Hf.
  rewrite nth_error_app2 by lia. f_equal. lia.
Qed.

Lemma shifted_nextToken pre a b :
  shifted pre a b -> shifted pre (nextToken a) (nextToken b).
Proof.
  intros [Hc Hf Hfl Hm Hs]. split; cbn; try assumption. lia.
Qed.

Lemma shifted_error pre m a b :
  shifted pre a b ->
  shifted pre (set_errorOccurred true (set_errorMessage m a))
              (set_errorOccurred true (set_errorMessage m b)).
Proof. intros [Hc Hf Hfl Hm Hs]. split; cbn; auto. Qed.

Lemma shifted_lastResult pre x a b :
  shifted pre a b -> shifted pre (set_lastResult x a) (set_lastResult x b).
Proof. intros [Hc Hf Hfl Hm Hs]. split; cbn; auto. Qed.

Section Related.

Context {imports : Imports}.

Lemma shifted_cell pre a b token :
  shifted pre a b -> getCellValue token b = getCellValue token a.
Proof. intros [_ _ _ _ Hs]. unfold getCellValue. rewrite Hs. reflexivity. Qed.

Lemma grammar_shifted pre fuel a b :
  shifted pre a b ->
  related (shifted pre) (evaluateExpression fuel a)
                        (evaluateExpression fuel b).
Proof.
  apply (grammar_simulation (shifted pre)).
  - apply shifted_token.
  - intros; eapply shifted_cell; eassumption.
  - apply shifted_nextToken.
  - intros; apply shifted_error; assumption.
  - intros; apply shifted_lastResult; assumption.
Qed.

Lemma same_cells_token a b : same_cells a b -> currentToken b = currentToken a.
Proof.
  intros [Hc _ _ Hf _ _]. unfold currentToken. rewrite Hc, Hf. reflexivity.
Qed.

Lemma same_cells_cell a b :
  same_cells a b -> isCellReference (currentToken a) = true ->
  getCellValue (currentToken a) b = getCellValue (currentToken a) a.
Proof.
  intros [_ _ _ _ Hnamed Hundefined] Hlabel.
  unfold isCellReference in Hlabel. unfold getCellValue.
  destruct (currentToken a) as [t|] eqn:Ht.
  - rewrite (Hnamed t); [reflexivity | | exact Hlabel].
    unfold currentToken in Ht. eapply nth_error_In; exact Ht.
  - rewrite (Hundefined Hlabel). reflexivity.
Qed.

Lemma grammar_same_cells fuel a b :
  same_cells a b ->
  related same_cells (evaluateExpression fuel a) (evaluateExpression fuel b).
Proof.
  apply (grammar_simulation same_cells).
  - apply same_cells_token.
  - apply same_cells_cell.
  - intros c d [Hc Hfl Hm Hf Hn Hu]. split; cbn; auto.
  - intros m c d [Hc Hfl Hm Hf Hn Hu]. split; cbn; auto.
  - intros x c d [Hc Hfl Hm Hf Hn Hu]. split; cbn; auto.
Qed.

End Related.

(** ** Tokens after a formula that evaluates without error *)

Lemma isNumber_None : isNumber None = false.
Proof. vm_compute. reflexivity. Qed.

Lemma flag_before a b :
  mutations a b -> _errorOccurred b = false -> _errorOccurred a = false.
Proof.
  intros H Hb. apply mutations_preserved in H.
  destruct H as [_ _ _ _ Hflag _].
  destruct (_errorOccurred a); [|reflexivity].
  rewrite Hflag in Hb by reflexivity. discriminate.
Qed.

Lemma extended_Some t rest a b s :
  extended t rest a b -> currentToken a = Some s ->
  currentToken b = Some s /\ extended t rest (nextToken a) (nextToken b).
Proof.
  intros [Hc Hf Hfl Hm Hs Hb] Ha. unfold currentToken in *.
  assert (Hlt : (_currentTokenIndex a < List.length (_currentFormula a))%nat)
    by (apply nth_error_Some; rewrite Ha; discriminate).
  split.
  - rewrite Hc, Hf, nth_error_app1 by exact Hlt. exact Ha.
  - split; cbn; try assumption; congruence.
Qed.

Lemma extended_None t rest a b :
  extended t rest a b -> currentToken a = None -> currentToken b = Some t.
Proof.
  intros [Hc Hf Hfl Hm Hs Hb] Ha. unfold currentToken, in_bounds in *.
  apply nth_error_None in Ha.
  rewrite Hc, Hf, nth_error_app2 by exact Ha.
  replace (_currentTokenIndex a - List.length (_currentFormula a))%nat
    with 0%nat by lia.
  reflexivity.
Qed.

Section Extension.

Context {imports : Imports}.

Variable t : TokenType.
Variable rest : FormulaType.

Hypothesis undefined_is_no_label : isValidCellLabel None = false.
Hypothesis t_not_operator : not_operator t.

Lemma extended_cell a b token :
  extended t rest a b -> getCellValue token b = getCellValue token a.
Proof.
  intros [_ _ _ _ Hs _]. unfold getCellValue. rewrite Hs. reflexivity.
Qed.

(** A grammar method that returns without the error flag is not affected by
    tokens after the formula, when the first of them is no operator and
    [undefined] is no label. *)
Lemma grammar_extended fuel :
  unaffected t rest (evaluateExpression fuel)
  /\ (forall value, unaffected t rest (evaluateExpression_while fuel value))
  /\ unaffected t rest (evaluateTerm fuel)
  /\ (forall value, unaffected t rest (evaluateTerm_while fuel value))
  /\ unaffected t rest (evaluateFactor fuel).
Proof.
  unfold unaffected.
  destruct t_not_operator as (Hplus & Hminus & Hmul & Hdiv).
  induction fuel as [|fuel (IHe & IHew & IHt & IHtw & IHf)].
  - repeat split; intros; discriminate.
  - repeat split.
    + intros a b v a' Hab H Hflag.
      rewrite evaluateExpression_S in H |- *.
      destruct (evaluateTerm fuel a) as [[v1 a1]|] eqn:H1; [|discriminate].
      assert (Hflag1 : _errorOccurred a1 = false)
        by (eapply flag_before;
            [eapply evaluateExpression_while_mutations|]; eassumption).
      destruct (IHt _ _ _ _ Hab H1 Hflag1) as (b1 & Hb1 & Hab1).
      rewrite Hb1. eapply IHew; eassumption.
    + intros value a b v a' Hab H Hflag.
      rewrite evaluateExpression_while_S in H |- *.
      destruct (currentToken a) as [s|] eqn:Hs.
      * destruct (extended_Some _ _ _ _ _ Hab Hs) as [Hbs Hnext].
        rewrite Hbs.
        destruct (strictEq (Some s) "+" || strictEq (Some s) "-").
        2:{ injection H as <- <-. eauto. }
        destruct (strictEq (Some s) "+").
        { destruct (evaluateTerm fuel (nextToken a)) as [[v1 a1]|] eqn:H1;
            [|discriminate].
          assert (Hflag1 : _errorOccurred a1 = false)
            by (eapply flag_before;
                [eapply evaluateExpression_while_mutations|]; eassumption).
          destruct (IHt _ _ _ _ Hnext H1 Hflag1) as (b1 & Hb1 & Hab1).
          rewrite Hb1. eapply IHew; eassumption. }
        destruct (strictEq (Some s) "-"); [|eapply IHew; eassumption].
        destruct (evaluateTerm fuel (nextToken a)) as [[v1 a1]|] eqn:H1;
          [|discriminate].
        assert (Hflag1 : _errorOccurred a1 = false)
          by (eapply flag_before;
              [eapply evaluateExpression_while_mutations|]; eassumption).
        destruct (IHt _ _ _ _ Hnext H1 Hflag1) as (b1 & Hb1 & Hab1).
        rewrite Hb1. eapply IHew; eassumption.
      * rewrite (extended_None _ _ _ _ Hab Hs), Hplus, Hminus.
        cbn in H |- *. injection H as <- <-. eauto.
    + intros a b v a' Hab H Hflag.
      rewrite evaluateTerm_S in H |- *.
      destruct (evaluateFactor fuel a) as [[v1 a1]|] eqn:H1; [|discriminate].
      assert (Hflag1 : _errorOccurred a1 = false)
        by (eapply flag_before;
            [eapply evaluateTerm_while_mutations|]; eassumption).
      destruct (IHf _ _ _ _ Hab H1 Hflag1) as (b1 & Hb1 & Hab1).
      rewrite Hb1. eapply IHtw; eassumption.
    + intros value a b v a' Hab H Hflag.
      rewrite evaluateTerm_while_S in H |- *.
      destruct (currentToken a) as [s|] eqn:Hs.
      * destruct (extended_Some _ _ _ _ _ Hab Hs) as [Hbs Hnext].
        rewrite Hbs.
        destruct (strictEq (Some s) "*" || strictEq (Some s) "/").
        2:{ injection H as <- <-. eauto. }
        destruct (strictEq (Some s) "*").
        { destruct (evaluateFactor fuel (nextToken a)) as [[v1 a1]|] eqn:H1;
            [|discriminate].
          assert (Hflag1 : _errorOccurred a1 = false)
            by (eapply flag_before;
                [eapply evaluateTerm_while_mutations|]; eassumption).
          destruct (IHf _ _ _ _ Hnext H1 Hflag1) as (b1 & Hb1 & Hab1).
          rewrite Hb1. eapply IHtw; eassumption. }
        destruct (strictEq (Some s) "/"); [|eapply IHtw; eassumption].
        destruct (evaluateFactor fuel (nextToken a)) as [[v1 a1]|] eqn:H1;
          [|discriminate].
        destruct (PrimFloat.eqb v1 0) eqn:Hzero.
        { injection H as _ <-. cbn in Hflag. discriminate. }
        assert (Hflag1 : _errorOccurred a1 = false)
          by (eapply flag_before;
              [eapply evaluateTerm_while_mutations|]; eassumption).
        destruct (IHf _ _ _ _ Hnext H1 Hflag1) as (b1 & Hb1 & Hab1).
        rewrite Hb1, Hzero. eapply IHtw; eassumption.
      * rewrite (extended_None _ _ _ _ Hab Hs), Hmul, Hdiv.
        cbn in H |- *. injection H as <- <-. eauto.
    + intros a b v a' Hab H Hflag.
      rewrite evaluateFactor_S in H |- *.
      destruct (currentToken a) as [s|] eqn:Hs.
      * destruct (extended_Some _ _ _ _ _ Hab Hs) as [Hbs Hnext].
        rewrite Hbs, (extended_cell a b (Some s) Hab).
        destruct (isNumber (Some s)).
        { injection H as <- <-. eauto. }
        destruct (isCellReference (Some s)).
        { destruct (truthy _).
          - injection H as _ <-. cbn in Hflag. discriminate.
          - injection H as <- <-. eauto. }
        destruct (strictEq (Some s) "(").
        2:{ injection H as _ <-. cbn in Hflag. discriminate. }
        destruct (evaluateExpression fuel (nextToken a)) as [[v1 a1]|] eqn:H1;
          [|discriminate].
        unfold isCurrentToken in H |- *.
        destruct (strictEq (currentToken a1) ")") eqn:Hclose.
        2:{ injection H as _ <-. cbn in Hflag. discriminate. }
        injection H as <- <-.
        destruct (IHe _ _ _ _ Hnext H1 Hflag) as (b1 & Hb1 & Hab1).
        rewrite Hb1. apply strictEq_true in Hclose.
        destruct (extended_Some _ _ _ _ _ Hab1 Hclose) as [Hb1s Hnext1].
        rewrite Hb1s. cbn. eauto.
      * rewrite isNumber_None in H. unfold isCellReference in H.
        rewrite undefined_is_no_label in H. cbn in H.
        injection H as _ <-. cbn in Hflag. discriminate.
Qed.

End Extension.

(** ** Further properties of the evaluator *)

Section Further.

Context {imports : Imports}.

Lemma fuelFor_S n : fuelFor (S n) = S (S (S (fuelFor n))).
Proof. unfold fuelFor. lia. Qed.

Lemma reset_flagged_with_message formula this :
  flagged_with_message (reset formula this).
Proof. intros H. discriminate. Qed.

(** What [evaluate] did when it leaves the empty error. *)
Lemma evaluate_without_error formula this v this' :
  messages_not_empty ->
  evaluate formula this = Some (v, this') ->
  error this' = "" ->
  formula <> []
  /\ exists this1,
      evaluateExpression (fuelFor (List.length formula)) (reset formula this)
      = Some (v, this1)
      /\ _errorOccurred this1 = false
      /\ _currentTokenIndex this1 = List.length formula
      /\ this' = store_result v this1.
Proof.
  intros (Hempty & Hinvalid & Hzero) He Herr.
  destruct formula as [|t formula].
  - rewrite evaluate_empty in He. injection He as _ <-.
    cbn in Herr. contradiction.
  - split; [discriminate|].
    rewrite evaluate_nonempty in He by discriminate.
    destruct (evaluateExpression _ _) as [[v1 this1]|] eqn:Hx;
      [|discriminate].
    destruct (negb (_currentTokenIndex this1 =? _)%nat
              && negb (_errorOccurred this1)) eqn:Hc.
    + injection He as _ <-. cbn in Herr. contradiction.
    + injection He as <- <-. exists this1.
      assert (Hflag : _errorOccurred this1 = false).
      { destruct (_errorOccurred this1) eqn:Hflag; [|reflexivity].
        exfalso.
        apply evaluateExpression_steps in Hx.
        apply (steps_flagged_with_message _ _ Hinvalid Hzero Hx
                 (reset_flagged_with_message _ _)); assumption. }
      rewrite Hflag in Hc. rewrite andb_true_r in Hc.
      apply negb_false_iff, Nat.eqb_eq in Hc.
      repeat split; assumption.
Qed.

(** What [evaluate] does after a descent that consumed the formula and
    recorded no error. *)
Lemma evaluate_of_descent formula this v this1 :
  formula <> [] ->
  evaluateExpression (fuelFor (List.length formula)) (reset formula this)
  = Some (v, this1) ->
  _errorOccurred this1 = false ->
  _currentTokenIndex this1 = List.length formula ->
  evaluate formula this = Some (v, store_result v this1)
  /\ error (store_result v this1) = "".
Proof.
  intros Hne Hx Hflag Hcursor.
  rewrite evaluate_nonempty, Hx, Hflag, Hcursor, Nat.eqb_refl by exact Hne.
  split; [reflexivity|].
  apply evaluateExpression_mutations, mutations_preserved in Hx.
  destruct Hx as [_ _ _ _ _ Hmsg]. cbn. rewrite Hmsg by exact Hflag.
  reflexivity.
Qed.

(** X1. The cursor never passes the end of the formula: when the label
    predicate rejects [undefined], [evaluate] leaves the cursor at most at
    the number of tokens, on the formula that it was given and with the
    store that the object had. *)
Theorem cursor_stays_within_formula formula this v this' :
  isValidCellLabel None = false ->
  evaluate formula this = Some (v, this') ->
  (_currentTokenIndex this' <= List.length formula)%nat
  /\ _currentFormula this' = formula
  /\ _sheetMemory this' = _sheetMemory this.
Proof.
  intros Hnone He. destruct formula as [|t formula].
  - rewrite evaluate_empty in He. injection He as _ <-.
    repeat split. cbn. lia.
  - rewrite evaluate_nonempty in He by discriminate.
    destruct (evaluateExpression _ _) as [[v1 this1]|] eqn:Hx;
      [|discriminate].
    assert (Hbound : in_bounds this1).
    { apply evaluateExpression_steps in Hx.
      apply (steps_in_bounds _ _ Hnone Hx). unfold in_bounds. cbn. lia. }
    apply evaluateExpression_mutations, mutations_preserved in Hx.
    destruct Hx as [Hformula Hmemory _ _ _ _].
    unfold in_bounds in Hbound. rewrite Hformula in Hbound.
    destruct (negb _ && negb _); injection He as _ <-; cbn;
      repeat split; assumption.
Qed.

(** X2. When the messages of the evaluator are not empty, [evaluate] leaves
    the empty error exactly when the formula is not empty, the descent
    recorded no error and the cursor is at the end of the formula; and then
    the number returned is the one behind [result]. *)
Theorem error_empty_iff_success formula this v this' :
  messages_not_empty ->
  evaluate formula this = Some (v, this') ->
  (error this' = ""
   <-> formula <> []
       /\ _errorOccurred this' = false
       /\ _currentTokenIndex this' = List.length formula)
  /\ (error this' = "" -> v = result this').
Proof.
  intros Hmsg He. split; [split|].
  - intros Herr.
    destruct (evaluate_without_error _ _ _ _ Hmsg He Herr)
      as (Hne & this1 & _ & Hflag & Hcursor & ->).
    repeat split; assumption.
  - intros (Hne & Hflag & Hcursor).
    rewrite evaluate_nonempty in He by exact Hne.
    destruct (evaluateExpression _ _) as [[v1 this1]|] eqn:Hx;
      [|discriminate].
    destruct (negb (_currentTokenIndex this1 =? _)%nat
              && negb (_errorOccurred this1)) eqn:Hc;
      injection He as <- <-; cbn in Hflag, Hcursor.
    + rewrite Hflag, Hcursor, Nat.eqb_refl in Hc. discriminate.
    + apply evaluateExpression_mutations, mutations_preserved in Hx.
      destruct Hx as [_ _ _ _ _ Hm]. cbn. rewrite Hm by exact Hflag.
      reflexivity.
  - intros Herr.
    destruct (evaluate_without_error _ _ _ _ Hmsg He Herr)
      as (_ & this1 & _ & _ & _ & ->).
    reflexivity.
Qed.

(** X3. A formula of one numeric literal evaluates to the number that the
    literal converts to, with the empty error. *)
Theorem single_number_literal n this :
  isNumber (Some n) = true ->
  exists this',
    evaluate [n] this = Some (JS.Number (Some n), this')
    /\ error this' = ""
    /\ result this' = JS.Number (Some n)
    /\ _currentTokenIndex this' = 1%nat.
Proof.
  intros Hn. evaluate_run ltac:(rewrite ?Hn).
  eexists. repeat split; reflexivity.
Qed.

(** X4. A formula of two numeric literals and one operator applies the
    operator to the two numbers; a division whose right-hand literal is
    zero returns infinity with DivideByZero. *)
Theorem binary_operation_on_literals a b this :
  isNumber (Some a) = true ->
  isNumber (Some b) = true ->
  (exists this',
      evaluate [a; "+"; b] this
      = Some (JS.Number (Some a) + JS.Number (Some b), this')
      /\ error this' = "")
  /\ (exists this',
         evaluate [a; "-"; b] this
         = Some (JS.Number (Some a) - JS.Number (Some b), this')
         /\ error this' = "")
  /\ (exists this',
         evaluate [a; "*"; b] this
         = Some (JS.Number (Some a) * JS.Number (Some b), this')
         /\ error this' = "")
  /\ (PrimFloat.eqb (JS.Number (Some b)) 0 = false ->
      exists this',
        evaluate [a; "/"; b] this
        = Some (JS.Number (Some a) / JS.Number (Some b), this')
        /\ error this' = "")
  /\ (PrimFloat.eqb (JS.Number (Some b)) 0 = true ->
      exists this',
        evaluate [a; "/"; b] this = Some (infinity, this')
        /\ error this' = divideByZero).
Proof.
  intros Ha Hb. repeat split.
  - evaluate_run ltac:(rewrite ?Ha, ?Hb). eexists. split; reflexivity.
  - evaluate_run ltac:(rewrite ?Ha, ?Hb). eexists. split; reflexivity.
  - evaluate_run ltac:(rewrite ?Ha, ?Hb). eexists. split; reflexivity.
  - intros Hz. evaluate_run ltac:(rewrite ?Ha, ?Hb, ?Hz).
    eexists. split; reflexivity.
  - intros Hz. evaluate_run ltac:(rewrite ?Ha, ?Hb, ?Hz).
    eexists. split; reflexivity.
Qed.

(** X5. For three numeric literals, multiplication binds tighter than
    addition on either side, and two operators of the same level apply from
    left to right. *)
Theorem precedence_and_associativity_of_literals a b c this :
  isNumber (Some a) = true ->
  isNumber (Some b) = true ->
  isNumber (Some c) = true ->
  let x := JS.Number (Some a) in
  let y := JS.Number (Some b) in
  let z := JS.Number (Some c) in
  (exists this',
      evaluate [a; "+"; b; "*"; c] this = Some (x + y * z, this')
      /\ error this' = "")
  /\ (exists this',
         evaluate [a; "*"; b; "+"; c] this = Some (x * y + z, this')
         /\ error this' = "")
  /\ (exists this',
         evaluate [a; "-"; b; "*"; c] this = Some (x - y * z, this')
         /\ error this' = "")
  /\ (exists this',
         evaluate [a; "-"; b; "-"; c] this = Some (x - y - z, this')
         /\ error this' = "")
  /\ (exists this',
         evaluate [a; "-"; b; "+"; c] this = Some (x - y + z, this')
         /\ error this' = "")
  /\ (PrimFloat.eqb y 0 = false ->
      PrimFloat.eqb z 0 = false ->
      exists this',
        evaluate [a; "/"; b; "/"; c] this = Some (x / y / z, this')
        /\ error this' = "")
  /\ (PrimFloat.eqb y 0 = false ->
      exists this',
        evaluate [a; "/"; b; "*"; c] this = Some (x / y * z, this')
        /\ error this' = "").
Proof.
  intros Ha Hb Hc x y z. subst x y z. repeat split.
  - evaluate_run ltac:(rewrite ?Ha, ?Hb, ?Hc). eexists. split; reflexivity.
  - evaluate_run ltac:(rewrite ?Ha, ?Hb, ?Hc). eexists. split; reflexivity.
  - evaluate_run ltac:(rewrite ?Ha, ?Hb, ?Hc). eexists. split; reflexivity.
  - evaluate_run ltac:(rewrite ?Ha, ?Hb, ?Hc). eexists. split; reflexivity.
  - evaluate_run ltac:(rewrite ?Ha, ?Hb, ?Hc). eexists. split; reflexivity.
  - intros Hy Hz. evaluate_run ltac:(rewrite ?Ha, ?Hb, ?Hc, ?Hy, ?Hz).
    eexists. split; reflexivity.
  - intros Hy. evaluate_run ltac:(rewrite ?Ha, ?Hb, ?Hc, ?Hy).
    eexists. split; reflexivity.
Qed.

Lemma truthy_empty : truthy "" = false.
Proof. reflexivity. Qed.

(** X6. A formula of one cell reference: a stored error that is neither
    empty nor the empty-formula marker is reported as it is, with 0;
    otherwise an empty stored formula gives 0 with InvalidCell; otherwise
    the stored value is returned with the empty error, and it enters a
    product as any number does. *)
Theorem single_cell_reference a this :
  isNumber (Some a) = false ->
  isValidCellLabel (Some a) = true ->
  let cell := getCellByLabel (_sheetMemory this) (Some a) in
  (getError cell <> "" -> getError cell <> emptyFormula ->
   exists this',
     evaluate [a] this = Some (0, this') /\ error this' = getError cell)
  /\ (getError cell = "" \/ getError cell = emptyFormula ->
      getFormula cell = [] ->
      exists this',
        evaluate [a] this = Some (0, this') /\ error this' = invalidCell)
  /\ (getError cell = "" \/ getError cell = emptyFormula ->
      getFormula cell <> [] ->
      (exists this',
          evaluate [a] this = Some (getValue cell, this')
          /\ error this' = "")
      /\ forall n, isNumber (Some n) = true ->
           exists this',
             evaluate [a; "*"; n] this
             = Some (getValue cell * JS.Number (Some n), this')
             /\ error this' = "").
Proof.
  intros Ha Hlabel cell.
  assert (Hother :
            getError cell = "" \/ getError cell = emptyFormula ->
            negb (getError cell =? "")%string
            && negb (getError cell =? emptyFormula)%string = false).
  { intros [H|H]; rewrite H.
    - reflexivity.
    - rewrite String.eqb_refl. apply andb_false_r. }
  repeat split.
  - intros H1 H2.
    assert (Htruthy : truthy (getError cell) = true)
      by (apply negb_true_iff, String.eqb_neq; exact H1).
    apply String.eqb_neq in H1, H2.
    evaluate_run
      ltac:(unfold isCellReference, getCellValue;
            fold cell; rewrite ?Ha, ?Hlabel, ?H1, ?H2, ?Htruthy).
    eexists. split; reflexivity.
  - intros H1 H2. apply Hother in H1.
    assert (Hlen : (List.length (getFormula cell) =? 0)%nat = true)
      by (rewrite H2; reflexivity).
    clear H2.
    destruct (truthy invalidCell) eqn:Hic.
    + evaluate_run
        ltac:(unfold isCellReference, getCellValue;
              fold cell; rewrite ?Ha, ?Hlabel, ?H1, ?Hlen, ?Hic).
      eexists. split; reflexivity.
    + evaluate_run
        ltac:(unfold isCellReference, getCellValue;
              fold cell; rewrite ?Ha, ?Hlabel, ?H1, ?Hlen, ?Hic).
      eexists. split; [reflexivity|].
      apply negb_false_iff, String.eqb_eq in Hic. cbn. symmetry. exact Hic.
  - apply Hother in H.
    assert (Hlen : (List.length (getFormula cell) =? 0)%nat = false)
      by (destruct (getFormula cell); [contradiction|reflexivity]).
    evaluate_run
      ltac:(unfold isCellReference, getCellValue;
            fold cell; rewrite ?Ha, ?Hlabel, ?H, ?Hlen, ?truthy_empty).
    eexists. split; reflexivity.
  - intros n Hn. apply Hother in H.
    assert (Hlen : (List.length (getFormula cell) =? 0)%nat = false)
      by (destruct (getFormula cell); [contradiction|reflexivity]).
    evaluate_run
      ltac:(unfold isCellReference, getCellValue;
            fold cell; rewrite ?Ha, ?Hlabel, ?Hn, ?H, ?Hlen,
              ?truthy_empty).
    eexists. split; reflexivity.
Qed.

(** X7. The grammar methods read the formula from the cursor on: with the
    tokens [pre] put before the formula and the cursor moved behind them,
    the expression returns the same number, records the same error and
    leaves the cursor moved by as many places. *)
Theorem expression_reads_from_cursor_on pre formula this :
  exists v a b,
    evaluateExpression (fuelFor (List.length formula)) (reset formula this)
    = Some (v, a)
    /\ evaluateExpression (fuelFor (List.length formula))
         (set_currentTokenIndex (List.length pre)
            (reset (pre ++ formula) this))
       = Some (v, b)
    /\ _currentTokenIndex b = (List.length pre + _currentTokenIndex a)%nat
    /\ _errorOccurred b = _errorOccurred a
    /\ error b = error a.
Proof.
  destruct (evaluateExpression_total
              (fuelFor (List.length formula)) (reset formula this))
    as (v & a & Ha & _).
  { rewrite remaining_reset. auto. }
  assert (Hshift : shifted pre (reset formula this)
                     (set_currentTokenIndex (List.length pre)
                        (reset (pre ++ formula) this)))
    by (split; cbn; auto).
  apply (grammar_shifted pre (fuelFor (List.length formula))) in Hshift.
  rewrite Ha in Hshift.
  destruct (evaluateExpression _ (set_currentTokenIndex _ _)) as [[v2 b]|];
    [|contradiction].
  destruct Hshift as [<- [Hc _ Hfl Hm _]].
  exists v, a, b. repeat split; assumption.
Qed.

(** X8. The outcome of [evaluate] depends on the store only through the
    cells that the tokens of the formula name: on two objects whose stores
    agree on every token of the formula that is a label, it returns the
    same number and leaves the same error. *)
Theorem evaluate_reads_named_cells formula ev1 ev2 :
  (forall t, In t formula -> isValidCellLabel (Some t) = true ->
             getCellByLabel (_sheetMemory ev1) (Some t)
             = getCellByLabel (_sheetMemory ev2) (Some t)) ->
  (isValidCellLabel None = true ->
   getCellByLabel (_sheetMemory ev1) None
   = getCellByLabel (_sheetMemory ev2) None) ->
  exists v ev1' ev2',
    evaluate formula ev1 = Some (v, ev1')
    /\ evaluate formula ev2 = Some (v, ev2')
    /\ error ev1' = error ev2'
    /\ (formula <> [] -> result ev1' = result ev2').
Proof.
  intros Hnamed Hundefined. destruct formula as [|t formula].
  - rewrite !evaluate_empty. eexists. eexists. eexists.
    repeat split. congruence.
  - rewrite !evaluate_nonempty by discriminate.
    assert (Hsame : same_cells (reset (t :: formula) ev1)
                               (reset (t :: formula) ev2))
      by (split; cbn; auto).
    apply (grammar_same_cells (fuelFor (List.length (t :: formula))))
      in Hsame.
    destruct (evaluateExpression_total
                (fuelFor (List.length (t :: formula)))
                (reset (t :: formula) ev1)) as (v & a & Ha & _).
    { rewrite remaining_reset. auto. }
    rewrite Ha in Hsame |- *.
    destruct (evaluateExpression _ (reset (t :: formula) ev2))
      as [[v2 b]|]; [|contradiction].
    destruct Hsame as [<- [Hc Hfl Hm Hf _ _]].
    rewrite <- Hc, <- Hfl.
    destruct (negb _ && negb _);
      eexists; eexists; eexists; repeat split; cbn; congruence.
Qed.

(** X9. Evaluating a formula once more on the same object, with the store
    as it was, returns the same number and leaves the same error and the
    same value behind [result]. *)
Theorem evaluating_again_gives_same_outcome formula this v this' :
  evaluate formula this = Some (v, this') ->
  exists this'',
    evaluate formula this' = Some (v, this'')
    /\ error this'' = error this'
    /\ result this'' = result this'.
Proof. apply evaluate_again. Qed.

(** X10. A formula whose first token is neither a number, nor a label, nor
    an opening parenthesis (an operator in first place, as a leading minus
    sign, or a closing parenthesis) ends with the error flag set and, when
    the messages of the evaluator are not empty, with an error that is not
    empty. *)
Theorem unexpected_first_token_is_an_error t rest this :
  messages_not_empty ->
  isNumber (Some t) = false ->
  isValidCellLabel (Some t) = false ->
  strictEq (Some t) "(" = false ->
  exists v this',
    evaluate (t :: rest) this = Some (v, this')
    /\ _errorOccurred this' = true
    /\ error this' <> ""
    /\ v = result this'.
Proof.
  intros (_ & Hinvalid & Hzero) Hnum Hlabel Hparen.
  rewrite evaluate_nonempty by discriminate.
  destruct (evaluateExpression_total
              (fuelFor (List.length (t :: rest))) (reset (t :: rest) this))
    as (v & this1 & Hx & _).
  { rewrite remaining_reset. auto. }
  rewrite Hx.
  assert (Hflag : _errorOccurred this1 = true).
  { revert Hx. cbn [List.length]. rewrite fuelFor_S.
    rewrite evaluateExpression_S, evaluateTerm_S, evaluateFactor_S.
    simplify_object. unfold isCellReference.
    rewrite Hnum, Hlabel, Hparen.
    destruct (evaluateTerm_while _ _ _) as [[v1 a1]|] eqn:Hw; [|discriminate].
    intros Hew.
    apply evaluateTerm_while_mutations, mutations_preserved in Hw.
    apply evaluateExpression_while_mutations, mutations_preserved in Hew.
    apply Hew, Hw. reflexivity. }
  rewrite Hflag, andb_false_r.
  eexists. eexists. split; [reflexivity|].
  split; [exact Hflag|]. split; [|reflexivity].
  apply evaluateExpression_steps in Hx.
  apply (steps_flagged_with_message _ _ Hinvalid Hzero Hx
           (reset_flagged_with_message _ _)).
  exact Hflag.
Qed.

Lemma fuelFor_le n m : n <= m -> fuelFor n <= fuelFor m.
Proof. unfold fuelFor. lia. Qed.

(** X11. Tokens after a formula that evaluates without error: when the
    first of them is not an operator, the longer formula returns 0 with
    InvalidFormula, the cursor stops where the formula ends, and the value
    of the formula is what [result] holds. *)
Theorem tokens_after_formula_are_invalid formula t rest this v this' :
  messages_not_empty ->
  isValidCellLabel None = false ->
  not_operator t ->
  evaluate formula this = Some (v, this') ->
  error this' = "" ->
  exists this'',
    evaluate (formula ++ t :: rest) this = Some (0, this'')
    /\ error this'' = invalidFormula
    /\ result this'' = v
    /\ _currentTokenIndex this'' = List.length formula
    /\ _errorOccurred this'' = false.
Proof.
  intros Hmsg Hnone Hop He Herr.
  destruct (evaluate_without_error _ _ _ _ Hmsg He Herr)
    as (Hne & s1 & Hrun & Hflag & Hcursor & _).
  assert (Hlen : List.length (formula ++ t :: rest)
                 = (List.length formula + S (List.length rest))%nat)
    by (rewrite length_app; reflexivity).
  assert (Hlonger : formula ++ t :: rest <> [])
    by (destruct formula; discriminate).
  apply (evaluateExpression_fuel_le _
           (fuelFor (List.length (formula ++ t :: rest)))) in Hrun;
    [|apply fuelFor_le; lia].
  assert (Hext : extended t rest (reset formula this)
                                 (reset (formula ++ t :: rest) this)).
  { split; cbn; auto. unfold in_bounds. cbn. lia. }
  destruct (grammar_extended t rest Hnone Hop
              (fuelFor (List.length (formula ++ t :: rest)))) as (Hexp & _).
  destruct (Hexp _ _ _ _ Hext Hrun Hflag)
    as (s2 & Hrun2 & [Hc2 Hf2 Hfl2 Hm2 Hs2 Hb2]).
  rewrite evaluate_nonempty, Hrun2, Hfl2, Hflag, Hc2, Hcursor by exact Hlonger.
  assert (Hneq : (List.length formula
                  =? List.length (formula ++ t :: rest))%nat = false)
    by (apply Nat.eqb_neq; lia).
  rewrite Hneq. cbn [negb andb].
  eexists. split; [reflexivity|]. cbn.
  repeat split; congruence.
Qed.

(** X12. Parentheses around a formula that evaluates without error do not
    change its value: the formula between [(] and [)] evaluates to the same
    number, with the empty error. *)
Theorem parentheses_keep_value formula this v this' :
  messages_not_empty ->
  isValidCellLabel None = false ->
  isValidCellLabel (Some "(") = false ->
  evaluate formula this = Some (v, this') ->
  error this' = "" ->
  exists this'',
    evaluate ("(" :: formula ++ [")"]) this = Some (v, this'')
    /\ error this'' = ""
    /\ result this'' = v.
Proof.
  intros Hmsg Hnone Hparen He Herr.
  destruct (evaluate_without_error _ _ _ _ Hmsg He Herr)
    as (Hne & s1 & Hrun & Hflag & Hcursor & _).
  set (inner := formula ++ [")"]).
  assert (Hlen : List.length ("(" :: inner) = S (S (List.length formula)))
    by (subst inner; cbn; rewrite length_app; cbn; lia).
  pose (fuel := fuelFor (S (List.length formula))).
  (* the descent on the formula, on the formula with [)] after it, and on
     the whole from the cursor 1 *)
  assert (Hformula1 : _currentFormula s1 = formula).
  { apply evaluateExpression_mutations, mutations_preserved in Hrun.
    destruct Hrun as [Hf _ _ _ _ _]. exact Hf. }
  assert (Hmessage1 : _errorMessage s1 = "").
  { apply evaluateExpression_mutations, mutations_preserved in Hrun.
    destruct Hrun as [_ _ _ _ _ Hm]. apply Hm. exact Hflag. }
  apply (evaluateExpression_fuel_le _ fuel) in Hrun;
    [|apply fuelFor_le; lia].
  assert (Hext : extended ")" [] (reset formula this) (reset inner this)).
  { split; cbn; auto. unfold in_bounds. cbn. lia. }
  assert (Hop : not_operator ")") by (repeat split; reflexivity).
  destruct (grammar_extended ")" [] Hnone Hop fuel) as (Hexp & _).
  destruct (Hexp _ _ _ _ Hext Hrun Hflag) as (s2 & Hrun2 & Hext2).
  assert (Hshift : shifted ["("] (reset inner this)
                           (nextToken (reset ("(" :: inner) this)))
    by (split; cbn; auto).
  apply (grammar_shifted ["("] fuel) in Hshift.
  rewrite Hrun2 in Hshift.
  destruct (evaluateExpression fuel (nextToken (reset ("(" :: inner) this)))
    as [[v3 s3]|] eqn:Hrun3; [|contradiction].
  destruct Hshift as [<- Hshift3].
  (* the closing parenthesis is at the cursor, and the end is behind it *)
  assert (Htoken1 : currentToken s1 = None).
  { unfold currentToken. apply nth_error_None. rewrite Hformula1. lia. }
  assert (Htoken3 : currentToken s3 = Some ")").
  { rewrite (shifted_token _ _ _ Hshift3).
    apply (extended_None _ _ _ _ Hext2 Htoken1). }
  destruct Hext2 as [Hc2 Hf2 Hfl2 Hm2 _ _].
  destruct Hshift3 as [Hc3 Hf3 Hfl3 Hm3 _].
  assert (Hcursor3 : _currentTokenIndex s3 = S (List.length formula))
    by (rewrite Hc3, Hc2, Hcursor; reflexivity).
  assert (Hend : currentToken (nextToken s3) = None).
  { unfold currentToken. apply nth_error_None. cbn.
    rewrite Hf3, Hf2, Hformula1, Hcursor3, !length_app. cbn. lia. }
  rewrite evaluate_nonempty by discriminate.
  rewrite Hlen, fuelFor_S. fold fuel.
  rewrite evaluateExpression_S, evaluateTerm_S, evaluateFactor_S.
  simplify_object. unfold isCellReference. rewrite Hparen.
  repeat (compute_condition; simplify_object).
  rewrite Hrun3. unfold isCurrentToken. rewrite Htoken3.
  repeat (compute_condition; simplify_object).
  rewrite evaluateTerm_while_S, Hend. cbn [strictEq orb].
  rewrite evaluateExpression_while_S, Hend. cbn [strictEq orb].
  cbn [nextToken set_currentTokenIndex _currentTokenIndex _errorOccurred].
  rewrite Hcursor3, Nat.eqb_refl. cbn [negb andb].
  eexists. split; [reflexivity|]. cbn.
  split; [congruence|reflexivity].
Qed.

End Further.

(** ** The properties at given inputs *)

(** Closed goals are settled by evaluation. *)
Ltac by_evaluation := vm_compute; reflexivity.

(** C1 at the label predicate of the specification and an empty store. *)
Lemma precedence_and_associativity_witness :
  @isValidCellLabel specImports (Some "(") = false
  /\ (exists this',
         @evaluate specImports ["("; "2"; "+"; "3"; ")"; "*"; "4"]
           (constructor emptySheet) = Some (20, this')
         /\ error this' = "" /\ result this' = 20).
Proof.
  split; [by_evaluation|].
  apply (@precedence_and_associativity specImports (constructor emptySheet)).
  by_evaluation.
Defined.

(** C2 at the operator of [5 / 0], where the factor [0] follows. *)
Lemma division_by_zero_ends_term_witness :
  let this := nextToken (reset ["5"; "/"; "0"] (constructor emptySheet)) in
  strictEq (currentToken this) "/" = true
  /\ exists this',
      @evaluateTerm_while specImports 2 5 this = Some (infinity, this')
      /\ error this' = "DivideByZero"
      /\ _errorOccurred this' = true
      /\ _lastResult this' = infinity
      /\ _currentTokenIndex this' = 3%nat.
Proof.
  split; [by_evaluation|].
  destruct (@division_by_zero_ends_term specImports) as [Hterm _].
  apply (Hterm 1%nat 5
           (nextToken (reset ["5"; "/"; "0"] (constructor emptySheet)))
           0 (nextToken (nextToken
                (nextToken (reset ["5"; "/"; "0"] (constructor emptySheet))))));
    by_evaluation.
Defined.

(** C3 at a cell with a stored error, an empty cell and a cell with a
    value. *)
Lemma cell_dereference_priority_witness :
  let this := reset ["A1"] (constructor erroringCells) in
  @getCellValue specImports (Some "A1") this = (0, "E1")
  /\ @getCellValue specImports (Some "D4") this = (0, "InvalidCell")
  /\ @getCellValue specImports (Some "C1") this = (5, "")
  /\ exists this',
      @evaluateFactor specImports 1 this = Some (0, this')
      /\ _currentTokenIndex this' = 1%nat
      /\ error this' = "E1"
      /\ _errorOccurred this' = true.
Proof.
  pose (this := reset ["A1"] (constructor erroringCells)).
  destruct (@cell_dereference_priority specImports (Some "A1") this)
    as (Herror & _ & _ & Hfactor).
  destruct (@cell_dereference_priority specImports (Some "D4") this)
    as (_ & Hempty & _).
  destruct (@cell_dereference_priority specImports (Some "C1") this)
    as (_ & _ & Hvalue & _).
  split; [apply Herror; discriminate|].
  split; [apply Hempty; [left|]; by_evaluation|].
  split; [apply Hvalue; [left; by_evaluation|discriminate]|].
  destruct (Hfactor 0%nat) as (this' & Hf & Hcursor & Hset & _);
    try by_evaluation.
  exists this'. split; [exact Hf|]. split; [exact Hcursor|].
  apply Hset. vm_compute. discriminate.
Defined.

(** C4: the formula [( 1 + 2] ends with an error and [evaluate] returns 3,
    which is neither 0 nor infinity. *)
Lemma erroring_result_neither_zero_nor_infinity :
  exists this',
    @evaluate specImports ["("; "1"; "+"; "2"] (constructor emptySheet)
    = Some (3, this')
    /\ error this' = "InvalidFormula"
    /\ error this' <> ""
    /\ 3 <> 0
    /\ 3 <> infinity.
Proof.
  eexists. split; [by_evaluation|]. split; [by_evaluation|].
  split; [discriminate|].
  split; apply float_neq; by_evaluation.
Qed.

(** C4, as amended, at the formula [( 1 + 2]. *)
Lemma erroring_evaluation_result_witness :
  exists this',
    @evaluate specImports ["("; "1"; "+"; "2"] (constructor emptySheet)
    = Some (3, this')
    /\ error this' <> ""
    /\ _errorOccurred this' = true
    /\ 3 = result this'.
Proof.
  destruct (@erroring_evaluation_result specImports)
    as (Hcases & Hparen & _).
  destruct (Hparen (constructor emptySheet)) as (this' & He & Herr & Hflag);
    [by_evaluation|].
  assert (Hset : error this' <> "") by (rewrite Herr; discriminate).
  exists this'. split; [exact He|]. split; [exact Hset|].
  split; [exact Hflag|].
  destruct (Hcases _ _ _ _ He Hset)
    as [(Hempty & _) | [(_ & Hclear & _) | (_ & _ & Hres & _)]].
  - discriminate.
  - rewrite Hflag in Hclear. discriminate.
  - exact Hres.
Defined.

(** C5: two cells with the stored errors E1 and E2; the formula [A1 + B1]
    meets E1 first and reports E2. *)
Lemma first_error_is_overwritten :
  getError (getCellByLabel erroringCells (Some "A1")) = "E1"
  /\ getError (getCellByLabel erroringCells (Some "B1")) = "E2"
  /\ (exists v this',
         @evaluate specImports ["A1"; "+"; "B1"] (constructor erroringCells)
         = Some (v, this')
         /\ error this' = "E2"
         /\ error this' <> "E1").
Proof.
  split; [by_evaluation|]. split; [by_evaluation|].
  eexists. eexists. split; [by_evaluation|].
  split; [by_evaluation|discriminate].
Qed.

(** C5, as amended, at the cell A1 with the stored error E1: the error E2 of
    the cell B1, a missing closing parenthesis, a missing operand and a
    division by zero each replace E1. *)
Lemma last_error_is_reported_witness :
  (exists v this',
      @evaluate specImports ["A1"; "+"; "B1"] (constructor erroringCells)
      = Some (v, this')
      /\ error this' = "E2")
  /\ (exists v this',
         @evaluate specImports ["("; "A1"] (constructor erroringCells)
         = Some (v, this')
         /\ error this' = "InvalidFormula")
  /\ (exists v this',
         @evaluate specImports ["A1"; "+"] (constructor erroringCells)
         = Some (v, this')
         /\ error this' = "InvalidFormula")
  /\ (exists v this',
         @evaluate specImports ["A1"; "/"; "0"] (constructor erroringCells)
         = Some (v, this')
         /\ error this' = "DivideByZero").
Proof.
  destruct (@last_error_is_reported specImports)
    as (_ & _ & Htwo & _ & _ & _ & _ & _ & Hparen & Hoperand & Hzero).
  split.
  { apply (Htwo "A1" "B1" (constructor erroringCells));
      first [by_evaluation | vm_compute; discriminate]. }
  split.
  { apply (Hparen "A1" (constructor erroringCells));
      first [by_evaluation | vm_compute; discriminate]. }
  split.
  { apply (Hoperand "A1" (constructor erroringCells));
      first [by_evaluation | vm_compute; discriminate]. }
  apply (Hzero "A1" (constructor erroringCells));
    first [by_evaluation | vm_compute; discriminate].
Defined.

(** C7 at the label predicate of the specification and an empty store. *)
Lemma unclosed_parenthesis_keeps_inner_value_witness :
  @isValidCellLabel specImports (Some "(") = false
  /\ exists this',
      @evaluate specImports ["("; "1"; "+"; "2"] (constructor emptySheet)
      = Some (3, this')
      /\ error this' = "InvalidFormula"
      /\ result this' = 3
      /\ _errorOccurred this' = true.
Proof.
  split; [by_evaluation|].
  apply (@unclosed_parenthesis_keeps_inner_value specImports
           (constructor emptySheet)).
  by_evaluation.
Defined.

(** C8: in [* 2] the factor at the cursor 0 is the error case and leaves the
    cursor at 0; the term loop that it returns to does not stop: it consumes
    both tokens. *)
Lemma term_loop_continues_after_factor_error :
  let this := reset ["*"; "2"] (constructor emptySheet) in
  let this1 := set_errorOccurred true (set_errorMessage "InvalidFormula" this) in
  @evaluateFactor specImports 1 this = Some (0, this1)
  /\ _currentTokenIndex this1 = 0%nat
  /\ @evaluateTerm_while specImports 2 0 this1 <> Some (0, this1)
  /\ exists this2,
      @evaluateTerm_while specImports 2 0 this1 = Some (0, this2)
      /\ _currentTokenIndex this2 = 2%nat.
Proof.
  cbv zeta. split; [by_evaluation|]. split; [by_evaluation|].
  split.
  - intros H.
    apply (f_equal (option_map (fun r => _currentTokenIndex (snd r)))) in H.
    vm_compute in H. discriminate.
  - eexists. split; by_evaluation.
Qed.

(** C8, as amended, at the formula [)]: the factor is the error case and
    the term loop stops at once; and at the formula [( ( 1 ) )], with its
    five tokens, the steps are at most thirty. *)
Lemma evaluate_terminates_witness :
  let this := reset [")"] (constructor emptySheet) in
  let this' := set_errorOccurred true (set_errorMessage "InvalidFormula" this) in
  isNumber (currentToken this) = false
  /\ @isCellReference specImports (currentToken this) = false
  /\ strictEq (currentToken this) "(" = false
  /\ @evaluateFactor specImports 1 this = Some (0, this')
  /\ @evaluateTerm_while specImports 1 0 this' = Some (0, this')
  /\ (exists v that, @evaluate specImports [")"] (constructor emptySheet)
                     = Some (v, that))
  /\ exists v that n errors,
      @evaluateExpression_traced specImports (fuelFor 5)
        (reset ["("; "("; "1"; ")"; ")"] (constructor emptySheet))
      = Some (v, that, n, errors)
      /\ (n <= 30)%nat.
Proof.
  cbv zeta.
  destruct (@evaluate_terminates specImports)
    as (Htotal & _ & _ & _ & Hfactor & Hsteps & _).
  destruct (Hfactor 0%nat (reset [")"] (constructor emptySheet)))
    as (Hf & _ & Hloop); try by_evaluation.
  split; [by_evaluation|]. split; [by_evaluation|]. split; [by_evaluation|].
  split; [exact Hf|].
  split; [apply (Hloop 0%nat 0); by_evaluation|].
  split; [apply Htotal|].
  destruct (Hsteps ["("; "("; "1"; ")"; ")"] (constructor emptySheet))
    as (v & that & n & errors & Ht & _ & Hn).
  exists v, that, n, errors. split; [exact Ht | exact Hn].
Defined.

(** C10 at the formula that consists of the empty-string token. *)
Lemma empty_string_token_is_number_witness :
  let this := reset [""] (constructor emptySheet) in
  currentToken this = Some ""
  /\ @evaluateFactor specImports 1 this = Some (0, nextToken this).
Proof.
  split; [by_evaluation|].
  destruct (@empty_string_token_is_number specImports) as (_ & _ & Hf & _).
  apply Hf. by_evaluation.
Defined.

(** ** The further properties at given inputs *)

Lemma specImports_messages_not_empty : @messages_not_empty specImports.
Proof. repeat split; discriminate. Qed.

(** X1 at the formula [1 + 2 3], which leaves a token unconsumed. *)
Lemma cursor_stays_within_formula_witness :
  exists v this',
    @evaluate specImports ["1"; "+"; "2"; "3"] (constructor emptySheet)
    = Some (v, this')
    /\ (_currentTokenIndex this' <= 4)%nat
    /\ _currentFormula this' = ["1"; "+"; "2"; "3"].
Proof.
  destruct (@evaluate_total specImports ["1"; "+"; "2"; "3"]
              (constructor emptySheet)) as (v & this' & He).
  exists v, this'. split; [exact He|].
  destruct (@cursor_stays_within_formula specImports _ _ _ _
              eq_refl He) as (Hcursor & Hformula & _).
  split; assumption.
Defined.

(** X2 at the formula [( 1 + 2], whose descent records an error. *)
Lemma error_empty_iff_success_witness :
  exists v this',
    @evaluate specImports ["("; "1"; "+"; "2"] (constructor emptySheet)
    = Some (v, this')
    /\ (error this' = ""
        <-> ["("; "1"; "+"; "2"] <> []
            /\ _errorOccurred this' = false
            /\ _currentTokenIndex this' = 4%nat).
Proof.
  destruct (@evaluate_total specImports ["("; "1"; "+"; "2"]
              (constructor emptySheet)) as (v & this' & He).
  exists v, this'. split; [exact He|].
  apply (@error_empty_iff_success specImports _ _ _ _
           specImports_messages_not_empty He).
Defined.

(** X3 at a literal with a fraction and an exponent. *)
Lemma single_number_literal_witness :
  isNumber (Some "2.5e1") = true
  /\ exists this',
      @evaluate specImports ["2.5e1"] (constructor emptySheet)
      = Some (JS.Number (Some "2.5e1"), this')
      /\ error this' = ""
      /\ result this' = JS.Number (Some "2.5e1")
      /\ _currentTokenIndex this' = 1%nat.
Proof.
  split; [by_evaluation|].
  apply (@single_number_literal specImports). by_evaluation.
Defined.

(** X4 at a division by the literal [-0]: the result is positive
    infinity. *)
Lemma binary_operation_on_literals_witness :
  PrimFloat.eqb (JS.Number (Some "-0")) 0 = true
  /\ exists this',
      @evaluate specImports ["5"; "/"; "-0"] (constructor emptySheet)
      = Some (infinity, this')
      /\ error this' = "DivideByZero".
Proof.
  split; [by_evaluation|].
  destruct (@binary_operation_on_literals specImports "5" "-0"
              (constructor emptySheet)) as (_ & _ & _ & _ & Hzero);
    try by_evaluation.
  apply Hzero. by_evaluation.
Defined.

(** X5 at three literals, the last division by a number that is not 0. *)
Lemma precedence_and_associativity_of_literals_witness :
  PrimFloat.eqb (JS.Number (Some "4")) 0 = false
  /\ exists this',
      @evaluate specImports ["8"; "/"; "4"; "*"; "3"] (constructor emptySheet)
      = Some (JS.Number (Some "8") / JS.Number (Some "4")
              * JS.Number (Some "3"), this')
      /\ error this' = "".
Proof.
  split; [by_evaluation|].
  destruct (@precedence_and_associativity_of_literals specImports
              "8" "4" "3" (constructor emptySheet))
    as (_ & _ & _ & _ & _ & _ & Hdiv); try by_evaluation.
  apply Hdiv. by_evaluation.
Defined.

(** X6 at the cell A1, which carries the stored error E1. *)
Lemma single_cell_reference_witness :
  isNumber (Some "A1") = false
  /\ @isValidCellLabel specImports (Some "A1") = true
  /\ exists this',
      @evaluate specImports ["A1"] (constructor erroringCells)
      = Some (0, this')
      /\ error this' = "E1".
Proof.
  split; [by_evaluation|]. split; [by_evaluation|].
  destruct (@single_cell_reference specImports "A1"
              (constructor erroringCells)) as (Herror & _);
    try by_evaluation.
  apply Herror; vm_compute; discriminate.
Defined.

(** X8 at two stores that differ at B1 only, for a formula that names C1. *)
Lemma evaluate_reads_named_cells_witness :
  getCellByLabel erroringCells (Some "B1")
  <> getCellByLabel otherCells (Some "B1")
  /\ exists v ev1' ev2',
      @evaluate specImports ["C1"; "*"; "2"] (constructor erroringCells)
      = Some (v, ev1')
      /\ @evaluate specImports ["C1"; "*"; "2"] (constructor otherCells)
         = Some (v, ev2')
      /\ error ev1' = error ev2'.
Proof.
  split; [vm_compute; discriminate|].
  destruct (@evaluate_reads_named_cells specImports ["C1"; "*"; "2"]
              (constructor erroringCells) (constructor otherCells))
    as (v & ev1' & ev2' & H1 & H2 & Herr & _).
  - intros t [<-|[<-|[<-|[]]]] Hlabel;
      first [reflexivity | vm_compute in Hlabel; discriminate].
  - intros Hlabel. vm_compute in Hlabel. discriminate.
  - exists v, ev1', ev2'. repeat split; assumption.
Defined.

(** X9 at the formula [5 / 0]. *)
Lemma evaluating_again_gives_same_outcome_witness :
  exists v this' this'',
    @evaluate specImports ["5"; "/"; "0"] (constructor emptySheet)
    = Some (v, this')
    /\ @evaluate specImports ["5"; "/"; "0"] this' = Some (v, this'')
    /\ error this'' = error this'
    /\ result this'' = result this'.
Proof.
  destruct (@evaluate_total specImports ["5"; "/"; "0"]
              (constructor emptySheet)) as (v & this' & He).
  destruct (@evaluating_again_gives_same_outcome specImports _ _ _ _ He)
    as (this'' & Hagain).
  exists v, this', this''. split; assumption.
Defined.

(** X10 at a formula with a leading minus sign. *)
Lemma unexpected_first_token_is_an_error_witness :
  exists v this',
    @evaluate specImports ["-"; "1"] (constructor emptySheet)
    = Some (v, this')
    /\ _errorOccurred this' = true
    /\ error this' <> ""
    /\ v = result this'.
Proof.
  apply (@unexpected_first_token_is_an_error specImports "-" ["1"]
           (constructor emptySheet) specImports_messages_not_empty);
    by_evaluation.
Defined.

(** X11 at the formula [1 + 2], which evaluates to 3, with [( 4] after
    it. *)
Lemma tokens_after_formula_are_invalid_witness :
  exists this'',
    @evaluate specImports (["1"; "+"; "2"] ++ ["("; "4"])
      (constructor emptySheet) = Some (0, this'')
    /\ error this'' = "InvalidFormula"
    /\ result this'' = 3
    /\ _currentTokenIndex this'' = 3%nat
    /\ _errorOccurred this'' = false.
Proof.
  apply (@tokens_after_formula_are_invalid specImports
           ["1"; "+"; "2"] "(" ["4"] (constructor emptySheet) 3
           (store_result 3
              (nextToken (nextToken (nextToken
                 (reset ["1"; "+"; "2"] (constructor emptySheet))))))
           specImports_messages_not_empty);
    first [by_evaluation | repeat split; by_evaluation].
Defined.

(** X12 at the formula [1 + 2], which evaluates to 3. *)
Lemma parentheses_keep_value_witness :
  exists this'',
    @evaluate specImports ("(" :: ["1"; "+"; "2"] ++ [")"])
      (constructor emptySheet) = Some (3, this'')
    /\ error this'' = ""
    /\ result this'' = 3.
Proof.
  apply (@parentheses_keep_value specImports
           ["1"; "+"; "2"] (constructor emptySheet) 3
           (store_result 3
              (nextToken (nextToken (nextToken
                 (reset ["1"; "+"; "2"] (constructor emptySheet))))))
           specImports_messages_not_empty);
    by_evaluation.
Defined.
